(** * pySigma rule validators: tag validators, dangling detections and
      modifier combinations

    A shallow embedding of [sigma/validators/tags.py] together with the parts
    of the validator framework it relies on, and of the dangling-detection and
    modifier-combination validators.

    Python objects are modelled as follows.
    - [str] is [string]; [str.lower] and [str.replace] act on the ASCII range,
      which is the alphabet of the MITRE ATT&CK catalogs and of tag names.
    - [Set[str]] is [gset string]; a [dict] from strings to strings is
      [gmap string string].
    - Rule objects live in a store indexed by references, so that "the same
      rule instance" and "the rule is left unchanged" can be stated; a
      validator object is a record of its instance attributes.
    - A method that reads and writes [self] is a computation in a small
      state-and-exception monad over the store and the validator object. *)

From Stdlib Require Import Ascii.
From stdpp Require Import base option list gmap fin_sets fin_maps strings countable.

#[local] Set Warnings "-clear-no-such-hyp".

(** ** Strings *)

(** [c.lower()] for one character of the ASCII range. *)
Definition ascii_lower (c : ascii) : ascii :=
  let n := nat_of_ascii c in
  if (65 <=? n)%nat && (n <=? 90)%nat then ascii_of_nat (n + 32) else c.

Fixpoint string_map (f : ascii → ascii) (s : string) : string :=
  match s with
  | EmptyString => EmptyString
  | String c s' => String (f c) (string_map f s')
  end.

(** [s.lower()] *)
Definition lower (s : string) : string := string_map ascii_lower s.

(** [s.replace(old, new)] for one-character [old] and [new]. *)
Definition replace (old new : ascii) (s : string) : string :=
  string_map (λ c, if Ascii.eqb c old then new else c) s.

(** [s.split(sep, maxsplit=1)] for a one-character separator: the text before
    the first separator and the text after it, if there is a separator. *)
Fixpoint split_first (sep : ascii) (s : string) : option (string * string) :=
  match s with
  | EmptyString => None
  | String c s' =>
      if Ascii.eqb c sep then Some (EmptyString, s')
      else match split_first sep s' with
           | Some (a, b) => Some (String c a, b)
           | None => None
           end
  end.

(** ** Severities *)

(** Modelled from the spec: the severity scale of [sigma/validators/base.py],
    an ordinal scale with the levels LOW, MEDIUM, HIGH and CRITICAL. *)
Inductive SigmaValidationIssueSeverity := LOW | MEDIUM | HIGH | CRITICAL.

(** ** Tags *)

Record SigmaRuleTag := { namespace : string; name : string }.

Global Instance SigmaRuleTag_eq_dec : EqDecision SigmaRuleTag.
Proof. solve_decision. Defined.

(** Modelled from the spec: [SigmaRuleTag.from_str] of [sigma/rule.py], which
    splits a tag on its first separator into namespace and name. *)
Definition SigmaRuleTag_from_str (tag : string) : option SigmaRuleTag :=
  match split_first "." tag with
  | Some (ns, n) => Some {| namespace := ns; name := n |}
  | None => None
  end.

(** ** Modifiers and field matches *)

(** Modelled from the spec: the modifier vocabulary of [sigma/modifiers.py].
    The spec names "contains", "all", "base64" and "base64offset" and leaves
    the rest of the vocabulary open; any other modifier is kept by its
    identifier. *)
Inductive SigmaModifier :=
| SigmaContainsModifier
| SigmaAllModifier
| SigmaBase64Modifier
| SigmaBase64OffsetModifier
| SigmaOtherModifier (identifier : string).

Global Instance SigmaModifier_eq_dec : EqDecision SigmaModifier.
Proof. solve_decision. Defined.

Definition SigmaModifier_encode (m : SigmaModifier) : nat + string :=
  match m with
  | SigmaContainsModifier => inl 0
  | SigmaAllModifier => inl 1
  | SigmaBase64Modifier => inl 2
  | SigmaBase64OffsetModifier => inl 3
  | SigmaOtherModifier s => inr s
  end.

Definition SigmaModifier_decode (x : nat + string) : SigmaModifier :=
  match x with
  | inl 0 => SigmaContainsModifier
  | inl 1 => SigmaAllModifier
  | inl 2 => SigmaBase64Modifier
  | inl _ => SigmaBase64OffsetModifier
  | inr s => SigmaOtherModifier s
  end.

Global Instance SigmaModifier_countable : Countable SigmaModifier.
Proof.
  apply (inj_countable' SigmaModifier_encode SigmaModifier_decode).
  by intros [].
Defined.

(** Modelled from the spec: a field match specification
    ([SigmaDetectionItem] of [sigma/rule.py]): an optional field name (absent
    for the unbound form), the ordered modifiers and the literal values. *)
Record SigmaDetectionItem := {
  field : option string;
  modifiers : list SigmaModifier;
  value : list string
}.

Global Instance SigmaDetectionItem_eq_dec : EqDecision SigmaDetectionItem.
Proof. solve_decision. Defined.

(** ** Condition expressions *)

(** Modelled from the spec: the parsed condition tree of
    [sigma/conditions.py], a boolean combination of references to
    sub-detections.  A reference is a literal name, a wildcard pattern or the
    keyword "them"; the last two appear under a quantifier ("1 of", "all
    of"). *)
Inductive ConditionQuantifier := OneOf | AllOf.

Inductive ConditionItem :=
| ConditionIdentifier (identifier : string)
| ConditionSelectorPattern (quantifier : ConditionQuantifier) (pattern : string)
| ConditionSelectorThem (quantifier : ConditionQuantifier)
| ConditionAND (left right : ConditionItem)
| ConditionOR (left right : ConditionItem)
| ConditionNOT (arg : ConditionItem).

(** ** Rules *)

(** Modelled from the spec: the rule object of [sigma/rule.py], with an
    optional identifier, a title, the ordered mapping from sub-detection names
    to their field matches, the parsed conditions and the tag list. *)
Record SigmaRule := {
  identifier : option string;
  title : string;
  detections : list (string * list SigmaDetectionItem);
  condition : list ConditionItem;
  tags : list SigmaRuleTag
}.

(** Rule objects are identified by reference; the store holds their
    current contents. *)
Abbreviation RuleRef := positive (only parsing).
Abbreviation store := (gmap positive SigmaRule) (only parsing).

(** ** Results and exceptions *)

Inductive exception :=
| AttributeError (attribute : string)
| InvalidReference (r : RuleRef).

Inductive result (A : Type) :=
| Return (a : A)
| Raise (e : exception).

Arguments Return {A} a.
Arguments Raise {A} e.

Global Instance result_ret : MRet result := λ A a, Return a.

Global Instance result_bind : MBind result := λ A B f c,
  match c with
  | Return a => f a
  | Raise e => Raise e
  end.

(** ** Issues of the tag validators *)

(** The two issue classes of [tags.py].  Both are dataclasses with the
    implicated rules and the offending tag as fields; description and
    severity are class constants. *)
Inductive SigmaValidationIssue :=
| InvalidATTACKTagIssue (rules : list RuleRef) (tag : SigmaRuleTag)
| InvalidTLPTagIssue (rules : list RuleRef) (tag : SigmaRuleTag).

Global Instance SigmaValidationIssue_eq_dec : EqDecision SigmaValidationIssue.
Proof. solve_decision. Defined.

Definition description (issue : SigmaValidationIssue) : string :=
  match issue with
  | InvalidATTACKTagIssue _ _ => "Invalid MITRE ATT&CK tagging"
  | InvalidTLPTagIssue _ _ => "Invalid TLP tagging"
  end.

Definition severity (issue : SigmaValidationIssue) : SigmaValidationIssueSeverity :=
  match issue with
  | InvalidATTACKTagIssue _ _ => MEDIUM
  | InvalidTLPTagIssue _ _ => MEDIUM
  end.

Definition issue_rules (issue : SigmaValidationIssue) : list RuleRef :=
  match issue with
  | InvalidATTACKTagIssue rules _ => rules
  | InvalidTLPTagIssue rules _ => rules
  end.

Definition issue_tag (issue : SigmaValidationIssue) : SigmaRuleTag :=
  match issue with
  | InvalidATTACKTagIssue _ tag => tag
  | InvalidTLPTagIssue _ tag => tag
  end.

(** Reading the attribute [rule] of a validator object: it is assigned by
    [validate] and absent on an object that has validated no rule yet. *)
Definition getattr_rule (attr : option RuleRef) : result RuleRef :=
  match attr with
  | Some r => Return r
  | None => Raise (AttributeError "rule")
  end.

(** ** The ATT&CK tag validator *)

Module ATTACKTagValidator.

(** The instance attributes of an [ATTACKTagValidator] object. *)
Record t := { allowed_tags : gset string; rule : option RuleRef }.

(** [__init__], with the two catalogs of [sigma.data.mitre_attack] as
    arguments. *)
Definition __init__ (mitre_attack_tactics mitre_attack_techniques : gmap string string) : t :=
  {| allowed_tags :=
       set_map (D:=gset string) (λ tactic, replace "-" "_" (lower tactic))
               (map_img (SA:=gset string) mitre_attack_tactics)
       ∪ set_map (D:=gset string) (λ technique, lower technique)
                 (dom mitre_attack_techniques);
     rule := None |}.

Definition validate_tag (self : t) (tag : SigmaRuleTag) : result (list SigmaValidationIssue) :=
  if bool_decide (namespace tag = "attack") && bool_decide (name tag ∉ allowed_tags self)
  then r ← getattr_rule (rule self); Return [InvalidATTACKTagIssue [r] tag]
  else Return [].

End ATTACKTagValidator.

(** ** The TLP tag validators *)

(** The three concrete classes deriving from [TLPTagValidatorBase], and the
    class attribute [allowed_tags] of each. *)
Inductive TLPTagValidatorClass := TLPv1TagValidator | TLPv2TagValidator | TLPTagValidator.

Definition TLPv1TagValidator_allowed_tags : gset string :=
  {[ "white"; "green"; "amber"; "red" ]}.

Definition TLPv2TagValidator_allowed_tags : gset string :=
  {[ "clear"; "green"; "amber"; "amber+strict"; "red" ]}.

Definition TLPTagValidator_allowed_tags : gset string :=
  TLPv1TagValidator_allowed_tags ∪ TLPv2TagValidator_allowed_tags.

Module TLPTagValidatorBase.

(** An object of one of the three classes: its class, and the instance
    attribute [rule]. *)
Record t := { class : TLPTagValidatorClass; rule : option RuleRef }.

(** [validator_class()] *)
Definition new (validator_class : TLPTagValidatorClass) : t :=
  {| class := validator_class; rule := None |}.

(** [self.allowed_tags] is found on the class of the object. *)
Definition allowed_tags (self : t) : gset string :=
  match class self with
  | TLPv1TagValidator => TLPv1TagValidator_allowed_tags
  | TLPv2TagValidator => TLPv2TagValidator_allowed_tags
  | TLPTagValidator => TLPTagValidator_allowed_tags
  end.

Definition validate_tag (self : t) (tag : SigmaRuleTag) : result (list SigmaValidationIssue) :=
  if bool_decide (namespace tag = "tlp") && bool_decide (name tag ∉ allowed_tags self)
  then r ← getattr_rule (rule self); Return [InvalidTLPTagIssue [r] tag]
  else Return [].

End TLPTagValidatorBase.

(** ** The tag validator framework *)

(** The interface of a tag validator: the method [validate_tag] each class
    implements, and the assignment [self.rule = rule]. *)
Class SigmaTagValidator (V : Type) := {
  validate_tag : V → SigmaRuleTag → result (list SigmaValidationIssue);
  setattr_rule : V → RuleRef → V
}.

Global Instance ATTACKTagValidator_validator : SigmaTagValidator ATTACKTagValidator.t := {|
  validate_tag := ATTACKTagValidator.validate_tag;
  setattr_rule self r :=
    {| ATTACKTagValidator.allowed_tags := ATTACKTagValidator.allowed_tags self;
       ATTACKTagValidator.rule := Some r |}
|}.

Global Instance TLPTagValidatorBase_validator : SigmaTagValidator TLPTagValidatorBase.t := {|
  validate_tag := TLPTagValidatorBase.validate_tag;
  setattr_rule self r :=
    {| TLPTagValidatorBase.class := TLPTagValidatorBase.class self;
       TLPTagValidatorBase.rule := Some r |}
|}.

(** The state a method call runs in: the store of rule objects and the
    validator object the method is called on. *)
Record world (V : Type) := World { objs : store; self : V }.

Arguments World {V} objs self.
Arguments objs {V} w.
Arguments self {V} w.

(** Computations that read and write the state and may raise. *)
Definition M (V A : Type) : Type := world V → result (A * world V).

Global Instance M_ret {V} : MRet (M V) := λ A a w, Return (a, w).

Global Instance M_bind {V} : MBind (M V) := λ A B f c w,
  match c w with
  | Return (a, w') => f a w'
  | Raise e => Raise e
  end.

Section SigmaTagValidator.
Context `{SigmaTagValidator V}.

(** [self.rule = rule] *)
Definition assign_rule (rule : RuleRef) : M V unit :=
  λ w, Return (tt, World (objs w) (setattr_rule (self w) rule)).

(** [rule.tags] *)
Definition read_tags (rule : RuleRef) : M V (list SigmaRuleTag) :=
  λ w, match objs w !! rule with
       | Some r => Return (tags r, w)
       | None => Raise (InvalidReference rule)
       end.

(** [self.validate_tag(tag)] *)
Definition call_validate_tag (tag : SigmaRuleTag) : M V (list SigmaValidationIssue) :=
  λ w, match validate_tag (self w) tag with
       | Return issues => Return (issues, w)
       | Raise e => Raise e
       end.

(** [[issue for tag in tags for issue in self.validate_tag(tag)]] *)
Fixpoint validate_tags (tags : list SigmaRuleTag) : M V (list SigmaValidationIssue) :=
  match tags with
  | [] => mret []
  | tag :: rest =>
      issues ← call_validate_tag tag;
      more ← validate_tags rest;
      mret (issues ++ more)
  end.

(** Modelled from the spec: [SigmaTagValidator.validate] of
    [sigma/validators/base.py].  The rule is recorded on the validator, where
    [validate_tag] reads it, and the issues of the tags are collected in the
    order of the tag list. *)
Definition validate (rule : RuleRef) : M V (list SigmaValidationIssue) :=
  _ ← assign_rule rule;
  tags ← read_tags rule;
  validate_tags tags.

(** Modelled from the spec: [finalize] of a rule-scoped validator returns an
    empty list. *)
Definition finalize : M V (list SigmaValidationIssue) := mret [].

End SigmaTagValidator.

(** Construction of the ATT&CK validator either completes with a validator
    object or aborts with a configuration error. *)
Inductive construction (V : Type) :=
| Constructed (validator : V)
| ConfigurationError.

Arguments Constructed {V} validator.
Arguments ConfigurationError {V}.

(** [ATTACKTagValidator()]: the constructor call runs [__init__], which has
    no failing path. *)
Definition ATTACKTagValidator_new (mitre_attack_tactics mitre_attack_techniques : gmap string string)
  : construction ATTACKTagValidator.t :=
  Constructed (ATTACKTagValidator.__init__ mitre_attack_tactics mitre_attack_techniques).

(** ** The dangling-detection validator *)

(** Glob matching of a whole name against a pattern in which [*] stands for
    any run of characters, possibly empty. *)
Fixpoint glob_match (pattern name : string) : bool :=
  match pattern with
  | EmptyString =>
      match name with
      | EmptyString => true
      | String _ _ => false
      end
  | String c pattern' =>
      if Ascii.eqb c "*" then
        (fix star (n : string) : bool :=
           glob_match pattern' n ||
           match n with
           | EmptyString => false
           | String _ n' => star n'
           end) name
      else
        match name with
        | EmptyString => false
        | String d name' => Ascii.eqb c d && glob_match pattern' name'
        end
  end.

Record DanglingDetectionIssue := {
  dangling_rules : list RuleRef;
  detection_name : string
}.

Global Instance DanglingDetectionIssue_eq_dec : EqDecision DanglingDetectionIssue.
Proof. solve_decision. Defined.

(** Modelled from the spec: the condition reference resolver of
    [sigma/validators/condition.py].  Given the defined names, it collects
    the names a condition tree refers to: a literal name if it is defined,
    every defined name matching a wildcard pattern, and every defined name
    for "them". *)
Fixpoint condition_referenced_ids (detection_names : list string) (cond : ConditionItem)
  : gset string :=
  match cond with
  | ConditionIdentifier n =>
      if bool_decide (n ∈ detection_names) then {[ n ]} else ∅
  | ConditionSelectorPattern _ pattern =>
      list_to_set (filter (λ n, glob_match pattern n) detection_names)
  | ConditionSelectorThem _ =>
      list_to_set detection_names
  | ConditionAND a b | ConditionOR a b =>
      condition_referenced_ids detection_names a ∪ condition_referenced_ids detection_names b
  | ConditionNOT a =>
      condition_referenced_ids detection_names a
  end.

(** Modelled from the spec: [DanglingDetectionValidator.validate] of
    [sigma/validators/condition.py].  One issue for each defined name that no
    condition of the rule refers to, in the order of the detection mapping. *)
Definition DanglingDetectionValidator_validate (ref : RuleRef) (rule : SigmaRule)
  : list DanglingDetectionIssue :=
  let detection_names := (detections rule).*1 in
  let referenced_ids := ⋃ (condition_referenced_ids detection_names <$> condition rule) in
  (λ n, {| dangling_rules := [ref]; detection_name := n |})
    <$> filter (λ n, n ∉ referenced_ids) detection_names.

(** ** The modifier-combination validator *)

Inductive ModifierIssue :=
| AllWithoutContainsModifierIssue (rules : list RuleRef) (detection_item : SigmaDetectionItem)
| Base64OffsetWithoutContainsModifierIssue (rules : list RuleRef) (detection_item : SigmaDetectionItem)
| ModifierAppliedMultipleIssue (rules : list RuleRef) (detection_item : SigmaDetectionItem)
    (multiple : gset SigmaModifier).

Global Instance ModifierIssue_eq_dec : EqDecision ModifierIssue.
Proof. solve_decision. Defined.

(** Modelled from the spec: the "contains" family.  The spec names no member
    of it other than "contains" itself. *)
Definition contains_family (m : SigmaModifier) : bool :=
  match m with
  | SigmaContainsModifier => true
  | _ => false
  end.

(** Modelled from the spec: some "base64offset" of the sequence has no
    modifier of the "contains" family anywhere later in the sequence. *)
Fixpoint base64offset_without_contains (mods : list SigmaModifier) : bool :=
  match mods with
  | [] => false
  | m :: later =>
      bool_decide (m = SigmaBase64OffsetModifier) && negb (existsb contains_family later)
      || base64offset_without_contains later
  end.

Section InvalidModifierCombinationsValidator.

(** Modelled from the spec: the validator's declared modifier set, the
    modifiers whose repeated application is reported.  The spec fixes that
    "base64offset" and "contains" belong to it and that "base64" does not. *)
Variable declared : SigmaModifier → bool.

(** The modifiers of the declared set that occur more than once. *)
Definition multiple_modifiers (mods : list SigmaModifier) : gset SigmaModifier :=
  list_to_set
    (filter (λ m, declared m ∧ 1 < count_occ SigmaModifier_eq_dec mods m) mods).

(** Modelled from the spec: [validate_detection_item] of
    [InvalidModifierCombinationsValidator] in [sigma/validators/modifiers.py],
    the three checks on the modifier sequence of one field match. *)
Definition validate_detection_item (ref : RuleRef) (detection_item : SigmaDetectionItem)
  : list ModifierIssue :=
  let mods := modifiers detection_item in
  (if bool_decide (field detection_item ≠ None)
      && bool_decide (SigmaAllModifier ∈ mods)
      && negb (existsb contains_family mods)
   then [AllWithoutContainsModifierIssue [ref] detection_item] else [])
  ++ (if base64offset_without_contains mods
      then [Base64OffsetWithoutContainsModifierIssue [ref] detection_item] else [])
  ++ (if bool_decide (multiple_modifiers mods ≠ ∅)
      then [ModifierAppliedMultipleIssue [ref] detection_item (multiple_modifiers mods)]
      else []).

(** Modelled from the spec: [validate] of the validator: every field match of
    every sub-detection is checked on its own. *)
Definition InvalidModifierCombinationsValidator_validate (ref : RuleRef) (rule : SigmaRule)
  : list ModifierIssue :=
  '(_, items) ← detections rule;
  detection_item ← items;
  validate_detection_item ref detection_item.

End InvalidModifierCombinationsValidator.

(** A declared set that excepts "base64" alone. *)
Definition declared_except_base64 (m : SigmaModifier) : bool :=
  negb (bool_decide (m = SigmaBase64Modifier)).

(** ** Fixtures of the test suite *)

(** A small excerpt of the two MITRE ATT&CK catalogs. *)
Definition sample_tactics : gmap string string :=
  {[ "TA0001" := "initial-access"; "TA0011" := "command-and-control" ]}.

Definition sample_techniques : gmap string string :=
  {[ "T1001" := "Data Obfuscation"; "T1001.001" := "Junk Data" ]}.

(** The rule of the tag tests: one sub-detection [sel] matching
    [field: value], the condition [sel], and the given tags. *)
Definition rule_with_tags (tag_strings : list string) : SigmaRule :=
  {| identifier := None;
     title := "Test";
     detections := [("sel", [ {| field := Some "field"; modifiers := []; value := ["value"] |} ])];
     condition := [ConditionIdentifier "sel"];
     tags := omap SigmaRuleTag_from_str tag_strings |}.

(** ** The verdict of the tag validators on one tag *)

(** The issues the ATT&CK validator reports for a tag while it validates the
    rule [r]. *)
Definition attack_verdict (allowed : gset string) (r : RuleRef) (tag : SigmaRuleTag)
  : list SigmaValidationIssue :=
  if decide (namespace tag = "attack" ∧ name tag ∉ allowed)
  then [InvalidATTACKTagIssue [r] tag] else [].

(** The same for the TLP validators. *)
Definition tlp_verdict (allowed : gset string) (r : RuleRef) (tag : SigmaRuleTag)
  : list SigmaValidationIssue :=
  if decide (namespace tag = "tlp" ∧ name tag ∉ allowed)
  then [InvalidTLPTagIssue [r] tag] else [].

(** ** Vocabulary of the statements *)

(** [validate_tag] of the TLP validator [v] returns a list that contains
    [issue]. *)
Definition tlp_emits (v : TLPTagValidatorBase.t) (tag : SigmaRuleTag)
    (issue : SigmaValidationIssue) : Prop :=
  ∃ issues, TLPTagValidatorBase.validate_tag v tag = Return issues ∧ issue ∈ issues.

(** A TLP validator object of the given class with the given [rule]
    attribute. *)
Definition tlp_validator (validator_class : TLPTagValidatorClass) (attr : option RuleRef)
  : TLPTagValidatorBase.t :=
  {| TLPTagValidatorBase.class := validator_class; TLPTagValidatorBase.rule := attr |}.

(** A name matches a glob pattern: a character of the pattern other than
    [*] stands for itself, [*] for any run of characters. *)
Inductive glob : string → string → Prop :=
| glob_empty : glob "" ""
| glob_char c pattern n : c ≠ "*"%char → glob pattern n → glob (String c pattern) (String c n)
| glob_star_none pattern n : glob pattern n → glob (String "*" pattern) n
| glob_star_more pattern c n : glob (String "*" pattern) n → glob (String "*" pattern) (String c n).

(** The condition [cond] refers to the defined name [n]: by its literal
    name, by a wildcard pattern that [n] matches, or by "them", anywhere in
    the tree. *)
Inductive references (detection_names : list string) : ConditionItem → string → Prop :=
| references_identifier n :
    n ∈ detection_names → references detection_names (ConditionIdentifier n) n
| references_pattern q pattern n :
    n ∈ detection_names → glob pattern n →
    references detection_names (ConditionSelectorPattern q pattern) n
| references_them q n :
    n ∈ detection_names → references detection_names (ConditionSelectorThem q) n
| references_and_l a b n :
    references detection_names a n → references detection_names (ConditionAND a b) n
| references_and_r a b n :
    references detection_names b n → references detection_names (ConditionAND a b) n
| references_or_l a b n :
    references detection_names a n → references detection_names (ConditionOR a b) n
| references_or_r a b n :
    references detection_names b n → references detection_names (ConditionOR a b) n
| references_not a n :
    references detection_names a n → references detection_names (ConditionNOT a) n.

(** The name [n] is reachable from some condition of the rule. *)
Definition reachable (rule : SigmaRule) (n : string) : Prop :=
  ∃ cond, cond ∈ condition rule ∧ references (detections rule).*1 cond n.

(** The rules of the dangling-detection tests. *)
Definition detection_of (field_name val : string) : list SigmaDetectionItem :=
  [ {| field := Some field_name; modifiers := []; value := [val] |} ].

Definition rule_with_detections (ds : list (string * list SigmaDetectionItem))
    (cond : ConditionItem) : SigmaRule :=
  {| identifier := None; title := "Test"; detections := ds; condition := [cond]; tags := [] |}.

Definition referenced_detections : list (string * list SigmaDetectionItem) :=
  [ ("referenced1", detection_of "field1" "val1");
    ("referenced2", detection_of "field2" "val2");
    ("referenced3", detection_of "field3" "val3") ].

(** [(referenced1 or referenced2) and referenced3] *)
Definition referenced_condition : ConditionItem :=
  ConditionAND (ConditionOR (ConditionIdentifier "referenced1") (ConditionIdentifier "referenced2"))
               (ConditionIdentifier "referenced3").

Definition rule_dangling_detection : SigmaRule :=
  rule_with_detections
    (referenced_detections ++ [("unreferenced", detection_of "field4" "val4")])
    referenced_condition.

Definition rule_dangling_detection_valid : SigmaRule :=
  rule_with_detections referenced_detections referenced_condition.

(** [1 of referenced*] *)
Definition rule_x_of_wildcard : SigmaRule :=
  rule_with_detections referenced_detections (ConditionSelectorPattern OneOf "referenced*").

(** [1 of them] *)
Definition rule_x_of_them : SigmaRule :=
  rule_with_detections referenced_detections (ConditionSelectorThem OneOf).

(** The three kinds of issues of the modifier-combination validator. *)
Definition is_all_without_contains (issue : ModifierIssue) : bool :=
  match issue with
  | AllWithoutContainsModifierIssue _ _ => true
  | _ => false
  end.

Definition is_base64offset_without_contains (issue : ModifierIssue) : bool :=
  match issue with
  | Base64OffsetWithoutContainsModifierIssue _ _ => true
  | _ => false
  end.

Definition is_modifier_applied_multiple (issue : ModifierIssue) : bool :=
  match issue with
  | ModifierAppliedMultipleIssue _ _ _ => true
  | _ => false
  end.

(** The rule of the modifier tests: one sub-detection [sel] with one field
    match. *)
Definition rule_with_detection_item (detection_item : SigmaDetectionItem) : SigmaRule :=
  {| identifier := None;
     title := "Test";
     detections := [("sel", [detection_item])];
     condition := [ConditionIdentifier "sel"];
     tags := [] |}.

(** ** Vocabulary of the further properties *)

(** An upper-case letter of the ASCII range. *)
Definition is_upper (c : ascii) : bool :=
  let n := nat_of_ascii c in (65 <=? n)%nat && (n <=? 90)%nat.

(** Some character of the string satisfies the test. *)
Fixpoint string_exists (p : ascii → bool) (s : string) : bool :=
  match s with
  | EmptyString => false
  | String c s' => p c || string_exists p s'
  end.

(** The tags a validator with the given allow-set reports. *)
Definition attack_flagged (allowed : gset string) (tag : SigmaRuleTag) : Prop :=
  namespace tag = "attack" ∧ name tag ∉ allowed.

Definition tlp_flagged (allowed : gset string) (tag : SigmaRuleTag) : Prop :=
  namespace tag = "tlp" ∧ name tag ∉ allowed.

Global Instance attack_flagged_dec allowed tag : Decision (attack_flagged allowed tag).
Proof. unfold attack_flagged. apply _. Defined.

Global Instance tlp_flagged_dec allowed tag : Decision (tlp_flagged allowed tag).
Proof. unfold tlp_flagged. apply _. Defined.

(** The issues a computation returned, if it returned. *)
Definition returned_issues {V : Type} (outcome : result (list SigmaValidationIssue * world V))
  : option (list SigmaValidationIssue) :=
  match outcome with
  | Return (issues, _) => Some issues
  | Raise _ => None
  end.

(** * Properties *)

(** ** Running [validate] *)

Section validate_facts.
Context `{SigmaTagValidator V}.

(** The issues [validate_tags] returns when no call of [validate_tag]
    raises: the concatenation of the per-tag lists. *)
Lemma validate_tags_run (ts : list SigmaRuleTag) (w : world V)
    (verdict : SigmaRuleTag → list SigmaValidationIssue) :
  (∀ tag, tag ∈ ts → validate_tag (self w) tag = Return (verdict tag)) →
  validate_tags ts w = Return (ts ≫= verdict, w).
Proof.
  induction ts as [|tag rest IH]; intros Hv; [done|].
  cbn [validate_tags]. unfold mbind at 1, M_bind, call_validate_tag.
  rewrite (Hv tag) by left.
  unfold mbind at 1, M_bind. rewrite IH by (intros; apply Hv; by right).
  done.
Qed.

(** [validate] on an allocated rule: record the rule, then check its tags. *)
Lemma validate_run (r : RuleRef) (rule : SigmaRule) (w : world V) :
  objs w !! r = Some rule →
  validate r w = validate_tags (tags rule) (World (objs w) (setattr_rule (self w) r)).
Proof.
  intros Hr. unfold validate, mbind, M_bind, assign_rule, read_tags. cbn.
  by rewrite Hr.
Qed.

End validate_facts.

Lemma attack_validate_tag_bound (v : ATTACKTagValidator.t) (r : RuleRef) (tag : SigmaRuleTag) :
  ATTACKTagValidator.rule v = Some r →
  ATTACKTagValidator.validate_tag v tag
  = Return (attack_verdict (ATTACKTagValidator.allowed_tags v) r tag).
Proof.
  intros Hr. unfold ATTACKTagValidator.validate_tag, attack_verdict. rewrite Hr.
  destruct (decide _) as [[Hn Ha]|Hno].
  - by rewrite !bool_decide_eq_true_2.
  - destruct (bool_decide (namespace tag = "attack")) eqn:En; [|done].
    destruct (bool_decide (name tag ∉ ATTACKTagValidator.allowed_tags v)) eqn:Ea; [|done].
    apply bool_decide_eq_true in En, Ea. by destruct Hno.
Qed.

Lemma tlp_validate_tag_bound (v : TLPTagValidatorBase.t) (r : RuleRef) (tag : SigmaRuleTag) :
  TLPTagValidatorBase.rule v = Some r →
  TLPTagValidatorBase.validate_tag v tag
  = Return (tlp_verdict (TLPTagValidatorBase.allowed_tags v) r tag).
Proof.
  intros Hr. unfold TLPTagValidatorBase.validate_tag, tlp_verdict. rewrite Hr.
  destruct (decide _) as [[Hn Ha]|Hno].
  - by rewrite !bool_decide_eq_true_2.
  - destruct (bool_decide (namespace tag = "tlp")) eqn:En; [|done].
    destruct (bool_decide (name tag ∉ TLPTagValidatorBase.allowed_tags v)) eqn:Ea; [|done].
    apply bool_decide_eq_true in En, Ea. by destruct Hno.
Qed.

(** [validate] of the ATT&CK validator on an allocated rule returns, leaves
    the store as it is, and records the rule on the validator. *)
Lemma attack_validate_returns (r : RuleRef) (rule : SigmaRule) (w : world ATTACKTagValidator.t) :
  objs w !! r = Some rule →
  validate r w
  = Return (tags rule ≫= attack_verdict (ATTACKTagValidator.allowed_tags (self w)) r,
            World (objs w) (setattr_rule (self w) r)).
Proof.
  intros Hr. rewrite (validate_run r rule w Hr).
  apply (validate_tags_run (V:=ATTACKTagValidator.t)). intros tag _. cbn.
  by rewrite (attack_validate_tag_bound _ r).
Qed.

Lemma tlp_validate_returns (r : RuleRef) (rule : SigmaRule) (w : world TLPTagValidatorBase.t) :
  objs w !! r = Some rule →
  validate r w
  = Return (tags rule ≫= tlp_verdict (TLPTagValidatorBase.allowed_tags (self w)) r,
            World (objs w) (setattr_rule (self w) r)).
Proof.
  intros Hr. rewrite (validate_run r rule w Hr).
  apply (validate_tags_run (V:=TLPTagValidatorBase.t)). intros tag _. cbn.
  by rewrite (tlp_validate_tag_bound _ r).
Qed.

(** Membership in the allow-set [__init__] builds. *)
Lemma elem_of_attack_allowed_tags (tactics techniques : gmap string string) (x : string) :
  x ∈ ATTACKTagValidator.allowed_tags (ATTACKTagValidator.__init__ tactics techniques)
  ↔ (∃ key display, tactics !! key = Some display ∧ x = replace "-" "_" (lower display))
    ∨ (∃ key display, techniques !! key = Some display ∧ x = lower key).
Proof.
  cbn. rewrite elem_of_union, !elem_of_map. split.
  - intros [(d & -> & Hd)|(k & -> & Hk)].
    + apply elem_of_map_img in Hd as [key Hkey]. left. eauto.
    + apply elem_of_dom in Hk as [d Hd]. right. eauto.
  - intros [(key & d & Hd & ->)|(key & d & Hd & ->)].
    + left. exists d. split; [done|]. apply elem_of_map_img. eauto.
    + right. exists key. split; [done|]. apply elem_of_dom. eauto.
Qed.

(** [validate_tags] leaves the state it runs in as it is. *)
Lemma validate_tags_state `{SigmaTagValidator V} (ts : list SigmaRuleTag) (w w' : world V)
    (issues : list SigmaValidationIssue) :
  validate_tags ts w = Return (issues, w') → w' = w.
Proof.
  revert issues. induction ts as [|tag rest IH]; intros issues.
  - cbn. by intros [= _ <-].
  - cbn [validate_tags]. unfold mbind at 1, M_bind, call_validate_tag.
    destruct (validate_tag (self w) tag) as [l|e]; [|done].
    unfold mbind at 1, M_bind.
    destruct (validate_tags rest w) as [[more w'']|e] eqn:Hrest; [|done].
    cbn. intros [= _ <-]. by eapply IH.
Qed.

(** Whenever [validate] returns, the store is the one it started from and
    the validator object differs only by the recorded rule. *)
Lemma validate_state `{SigmaTagValidator V} (r : RuleRef) (w w' : world V)
    (issues : list SigmaValidationIssue) :
  validate r w = Return (issues, w') →
  w' = World (objs w) (setattr_rule (self w) r).
Proof.
  unfold validate, mbind, M_bind, assign_rule, read_tags. cbn.
  destruct (objs w !! r) as [rule|]; [|done].
  apply validate_tags_state.
Qed.

(** ** C1: the ATT&CK tag validator *)

(** C1. The allow-set of the ATT&CK tag validator is built by the constructor
    as the union of the tactic display names, lower-cased and with "-"
    replaced by "_", and the lower-cased technique keys, and [validate] never
    rebuilds it.  While a rule [r] is validated, [validate_tag] returns
    exactly one [InvalidATTACKTagIssue] for a tag of the namespace "attack"
    whose name is not in the allow-set, the empty list for one whose name is
    in it, and the empty list for every tag of another namespace. *)
Theorem attack_validator_allow_set_and_verdict
    (tactics techniques : gmap string string)
    (v : ATTACKTagValidator.t) (r : RuleRef) (tag : SigmaRuleTag) :
  ATTACKTagValidator.allowed_tags v
    = ATTACKTagValidator.allowed_tags (ATTACKTagValidator.__init__ tactics techniques) →
  ATTACKTagValidator.rule v = Some r →
  (∀ x, x ∈ ATTACKTagValidator.allowed_tags v
        ↔ (∃ key display, tactics !! key = Some display
                           ∧ x = replace "-" "_" (lower display))
          ∨ (∃ key display, techniques !! key = Some display ∧ x = lower key))
  ∧ (namespace tag = "attack" → name tag ∉ ATTACKTagValidator.allowed_tags v →
     ATTACKTagValidator.validate_tag v tag = Return [InvalidATTACKTagIssue [r] tag])
  ∧ (namespace tag = "attack" → name tag ∈ ATTACKTagValidator.allowed_tags v →
     ATTACKTagValidator.validate_tag v tag = Return [])
  ∧ (namespace tag ≠ "attack" → ATTACKTagValidator.validate_tag v tag = Return [])
  ∧ (∀ (w w' : world ATTACKTagValidator.t) (r' : RuleRef) issues,
       self w = v → validate r' w = Return (issues, w') →
       ATTACKTagValidator.allowed_tags (self w') = ATTACKTagValidator.allowed_tags v).
Proof.
  intros Hset Hrule. split; [|split; [|split; [|split]]].
  - intros x. rewrite Hset. apply elem_of_attack_allowed_tags.
  - intros Hn Ha. rewrite (attack_validate_tag_bound v r tag Hrule).
    unfold attack_verdict. by rewrite decide_True.
  - intros Hn Ha. rewrite (attack_validate_tag_bound v r tag Hrule).
    unfold attack_verdict. rewrite decide_False; [done|]. by intros [_ ?].
  - intros Hn. rewrite (attack_validate_tag_bound v r tag Hrule).
    unfold attack_verdict. rewrite decide_False; [done|]. by intros [? _].
  - intros w w' r' issues <- Hrun. by rewrite (validate_state _ _ _ _ Hrun).
Qed.

Lemma attack_validator_allow_set_and_verdict_witness :
  let v := setattr_rule (ATTACKTagValidator.__init__ sample_tactics sample_techniques) 1%positive in
  ATTACKTagValidator.allowed_tags v
    = ATTACKTagValidator.allowed_tags (ATTACKTagValidator.__init__ sample_tactics sample_techniques)
  ∧ ATTACKTagValidator.rule v = Some 1%positive
  ∧ ATTACKTagValidator.validate_tag v {| namespace := "attack"; name := "test1" |}
    = Return [InvalidATTACKTagIssue [1%positive] {| namespace := "attack"; name := "test1" |}]
  ∧ ATTACKTagValidator.validate_tag v {| namespace := "attack"; name := "command_and_control" |}
    = Return []
  ∧ ATTACKTagValidator.validate_tag v {| namespace := "attack"; name := "t1001.001" |}
    = Return []
  ∧ ATTACKTagValidator.validate_tag v {| namespace := "tlp"; name := "test1" |}
    = Return [].
Proof.
  intros v. split; [reflexivity|]. split; [reflexivity|].
  split; [|split; [|split]].
  - destruct (attack_validator_allow_set_and_verdict sample_tactics sample_techniques v 1%positive
                {| namespace := "attack"; name := "test1" |} eq_refl eq_refl)
      as (_ & Hflag & _).
    apply Hflag; [reflexivity|]. apply (bool_decide_unpack _). vm_compute. exact I.
  - destruct (attack_validator_allow_set_and_verdict sample_tactics sample_techniques v 1%positive
                {| namespace := "attack"; name := "command_and_control" |} eq_refl eq_refl)
      as (_ & _ & Hpass & _).
    apply Hpass; [reflexivity|]. apply (bool_decide_unpack _). vm_compute. exact I.
  - destruct (attack_validator_allow_set_and_verdict sample_tactics sample_techniques v 1%positive
                {| namespace := "attack"; name := "t1001.001" |} eq_refl eq_refl)
      as (_ & _ & Hpass & _).
    apply Hpass; [reflexivity|]. apply (bool_decide_unpack _). vm_compute. exact I.
  - destruct (attack_validator_allow_set_and_verdict sample_tactics sample_techniques v 1%positive
                {| namespace := "tlp"; name := "test1" |} eq_refl eq_refl)
      as (_ & _ & _ & Hother & _).
    apply Hother. apply (bool_decide_unpack _). vm_compute. exact I.
Defined.

(** ** C2: the TLP tag validators *)

(** C2. The allow-set of the v1 validator is white, green, amber, red; that
    of the v2 validator is clear, green, amber, amber+strict, red; that of
    the third validator is the union of the two.  While a rule [r] is
    validated, each of them returns exactly one [InvalidTLPTagIssue] for a tag
    of the namespace "tlp" whose name is not in its allow-set, no issue for
    one whose name is in it, and no issue for a tag of another namespace.  On
    a rule tagged tlp.clear and tlp.white the v1 validator reports tlp.clear
    only, the v2 validator tlp.white only and the third validator nothing; on
    a rule tagged tlp.clear, tlp.white and tlp.test the third validator
    reports exactly tlp.test. *)
Theorem tlp_validators_allow_sets_and_verdict
    (v : TLPTagValidatorBase.t) (r : RuleRef) (tag : SigmaRuleTag)
    (rules : store) (r2 r3 : RuleRef) (rule2 rule3 : SigmaRule) :
  TLPTagValidatorBase.rule v = Some r →
  rules !! r2 = Some rule2 →
  tags rule2 = omap SigmaRuleTag_from_str ["tlp.clear"; "tlp.white"] →
  rules !! r3 = Some rule3 →
  tags rule3 = omap SigmaRuleTag_from_str ["tlp.clear"; "tlp.white"; "tlp.test"] →
  (∀ x, x ∈ TLPTagValidatorBase.allowed_tags v ↔
        match TLPTagValidatorBase.class v with
        | TLPv1TagValidator => x ∈ ["white"; "green"; "amber"; "red"]
        | TLPv2TagValidator => x ∈ ["clear"; "green"; "amber"; "amber+strict"; "red"]
        | TLPTagValidator =>
            x ∈ ["white"; "green"; "amber"; "red"]
            ∨ x ∈ ["clear"; "green"; "amber"; "amber+strict"; "red"]
        end)
  ∧ (namespace tag = "tlp" →
     (name tag ∉ TLPTagValidatorBase.allowed_tags v ↔
      TLPTagValidatorBase.validate_tag v tag = Return [InvalidTLPTagIssue [r] tag])
     ∧ (name tag ∈ TLPTagValidatorBase.allowed_tags v ↔
        TLPTagValidatorBase.validate_tag v tag = Return []))
  ∧ (namespace tag ≠ "tlp" → TLPTagValidatorBase.validate_tag v tag = Return [])
  ∧ validate r2 (World rules (TLPTagValidatorBase.new TLPv1TagValidator))
    = Return ([InvalidTLPTagIssue [r2] {| namespace := "tlp"; name := "clear" |}],
              World rules (setattr_rule (TLPTagValidatorBase.new TLPv1TagValidator) r2))
  ∧ validate r2 (World rules (TLPTagValidatorBase.new TLPv2TagValidator))
    = Return ([InvalidTLPTagIssue [r2] {| namespace := "tlp"; name := "white" |}],
              World rules (setattr_rule (TLPTagValidatorBase.new TLPv2TagValidator) r2))
  ∧ validate r2 (World rules (TLPTagValidatorBase.new TLPTagValidator))
    = Return ([], World rules (setattr_rule (TLPTagValidatorBase.new TLPTagValidator) r2))
  ∧ validate r3 (World rules (TLPTagValidatorBase.new TLPTagValidator))
    = Return ([InvalidTLPTagIssue [r3] {| namespace := "tlp"; name := "test" |}],
              World rules (setattr_rule (TLPTagValidatorBase.new TLPTagValidator) r3)).
Proof.
  intros Hrule Hr2 Ht2 Hr3 Ht3.
  split; [|split; [|split; [|split; [|split; [|split]]]]].
  - intros x. unfold TLPTagValidatorBase.allowed_tags.
    destruct (TLPTagValidatorBase.class v);
      unfold TLPTagValidator_allowed_tags, TLPv1TagValidator_allowed_tags,
             TLPv2TagValidator_allowed_tags; set_solver.
  - intros Hn. rewrite (tlp_validate_tag_bound v r tag Hrule). unfold tlp_verdict.
    destruct (decide (name tag ∈ TLPTagValidatorBase.allowed_tags v)) as [Hin|Hnot].
    + rewrite decide_False by (by intros [_ ?]).
      split; split; [by intros ?|by intros [=]|done|done].
    + rewrite decide_True by done.
      split; split; [done|done|by intros ?|by intros [=]].
  - intros Hn. rewrite (tlp_validate_tag_bound v r tag Hrule). unfold tlp_verdict.
    rewrite decide_False; [done|]. by intros [? _].
  - rewrite (tlp_validate_returns r2 rule2 (World rules _) Hr2). cbn [objs self].
    rewrite Ht2. reflexivity.
  - rewrite (tlp_validate_returns r2 rule2 (World rules _) Hr2). cbn [objs self].
    rewrite Ht2. reflexivity.
  - rewrite (tlp_validate_returns r2 rule2 (World rules _) Hr2). cbn [objs self].
    rewrite Ht2. reflexivity.
  - rewrite (tlp_validate_returns r3 rule3 (World rules _) Hr3). cbn [objs self].
    rewrite Ht3. reflexivity.
Qed.

Lemma tlp_validators_allow_sets_and_verdict_witness :
  let rule2 := rule_with_tags ["tlp.clear"; "tlp.white"] in
  let rule3 := rule_with_tags ["tlp.clear"; "tlp.white"; "tlp.test"] in
  let rules : store := {[ 1%positive := rule2; 2%positive := rule3 ]} in
  let v := setattr_rule (TLPTagValidatorBase.new TLPv1TagValidator) 1%positive in
  let clear := {| namespace := "tlp"; name := "clear" |} in
  TLPTagValidatorBase.rule v = Some 1%positive
  ∧ rules !! 1%positive = Some rule2
  ∧ tags rule2 = omap SigmaRuleTag_from_str ["tlp.clear"; "tlp.white"]
  ∧ rules !! 2%positive = Some rule3
  ∧ tags rule3 = omap SigmaRuleTag_from_str ["tlp.clear"; "tlp.white"; "tlp.test"]
  ∧ TLPTagValidatorBase.validate_tag v clear = Return [InvalidTLPTagIssue [1%positive] clear]
  ∧ validate 1%positive (World rules (TLPTagValidatorBase.new TLPv1TagValidator))
    = Return ([InvalidTLPTagIssue [1%positive] clear],
              World rules (setattr_rule (TLPTagValidatorBase.new TLPv1TagValidator) 1%positive)).
Proof.
  intros rule2 rule3 rules v clear.
  assert (H1 : TLPTagValidatorBase.rule v = Some 1%positive) by reflexivity.
  assert (H2 : rules !! 1%positive = Some rule2) by (vm_compute; reflexivity).
  assert (H3 : tags rule2 = omap SigmaRuleTag_from_str ["tlp.clear"; "tlp.white"])
    by reflexivity.
  assert (H4 : rules !! 2%positive = Some rule3) by (vm_compute; reflexivity).
  assert (H5 : tags rule3 = omap SigmaRuleTag_from_str ["tlp.clear"; "tlp.white"; "tlp.test"])
    by reflexivity.
  destruct (tlp_validators_allow_sets_and_verdict v 1%positive clear rules
              1%positive 2%positive rule2 rule3 H1 H2 H3 H4 H5)
    as (_ & Hverdict & _ & Hv1 & _).
  repeat (split; [assumption|]). split; [|exact Hv1].
  apply Hverdict; [reflexivity|]. apply (bool_decide_unpack _). vm_compute. exact I.
Defined.

(** ** C9: the third TLP validator against the other two *)

(** C9. The allow-set of [TLPTagValidator] is the union of the allow-sets of
    [TLPv1TagValidator] and [TLPv2TagValidator], and for every tag the former
    emits an issue exactly when both of the latter emit it; while a rule is
    validated, it returns a non-empty list exactly when both of them do. *)
Theorem tlp_union_flags_iff_both_flag
    (attr : option RuleRef) (r : RuleRef) (tag : SigmaRuleTag) (issue : SigmaValidationIssue) :
  TLPTagValidatorBase.allowed_tags (tlp_validator TLPTagValidator attr)
    = TLPTagValidatorBase.allowed_tags (tlp_validator TLPv1TagValidator attr)
      ∪ TLPTagValidatorBase.allowed_tags (tlp_validator TLPv2TagValidator attr)
  ∧ (tlp_emits (tlp_validator TLPTagValidator attr) tag issue
     ↔ tlp_emits (tlp_validator TLPv1TagValidator attr) tag issue
       ∧ tlp_emits (tlp_validator TLPv2TagValidator attr) tag issue)
  ∧ (TLPTagValidatorBase.validate_tag (tlp_validator TLPTagValidator (Some r)) tag
       = Return [InvalidTLPTagIssue [r] tag]
     ↔ TLPTagValidatorBase.validate_tag (tlp_validator TLPv1TagValidator (Some r)) tag
         = Return [InvalidTLPTagIssue [r] tag]
       ∧ TLPTagValidatorBase.validate_tag (tlp_validator TLPv2TagValidator (Some r)) tag
           = Return [InvalidTLPTagIssue [r] tag])
  ∧ (TLPTagValidatorBase.validate_tag (tlp_validator TLPTagValidator (Some r)) tag = Return []
     ↔ TLPTagValidatorBase.validate_tag (tlp_validator TLPv1TagValidator (Some r)) tag = Return []
       ∨ TLPTagValidatorBase.validate_tag (tlp_validator TLPv2TagValidator (Some r)) tag = Return []).
Proof.
  split; [reflexivity|]. split; [|split].
  - unfold tlp_emits, TLPTagValidatorBase.validate_tag, TLPTagValidatorBase.allowed_tags.
    cbn [TLPTagValidatorBase.class TLPTagValidatorBase.rule tlp_validator].
    unfold TLPTagValidator_allowed_tags.
    destruct (bool_decide (namespace tag = "tlp")); cbn [andb].
    + destruct (decide (name tag ∈ TLPv1TagValidator_allowed_tags)) as [H1|H1];
        destruct (decide (name tag ∈ TLPv2TagValidator_allowed_tags)) as [H2|H2].
      * rewrite !bool_decide_eq_false_2 by set_solver.
        split; [intros (l & [= <-] & Hin)|intros [(l & [= <-] & Hin) _]];
          by apply elem_of_nil in Hin.
      * rewrite (bool_decide_eq_false_2 (name tag ∉ TLPv1TagValidator_allowed_tags ∪ _))
          by set_solver.
        rewrite (bool_decide_eq_false_2 (name tag ∉ TLPv1TagValidator_allowed_tags))
          by set_solver.
        split; [intros (l & [= <-] & Hin)|intros [(l & [= <-] & Hin) _]];
          by apply elem_of_nil in Hin.
      * rewrite (bool_decide_eq_false_2 (name tag ∉ TLPv1TagValidator_allowed_tags ∪ _))
          by set_solver.
        rewrite (bool_decide_eq_false_2 (name tag ∉ TLPv2TagValidator_allowed_tags))
          by set_solver.
        split; [intros (l & [= <-] & Hin)|intros [_ (l & [= <-] & Hin)]];
          by apply elem_of_nil in Hin.
      * rewrite !bool_decide_eq_true_2 by set_solver.
        split; [intros Hl; by split|by intros [Hl _]].
    + split; [intros (l & [= <-] & Hin)|intros [(l & [= <-] & Hin) _]];
        by apply elem_of_nil in Hin.
  - rewrite (tlp_validate_tag_bound (tlp_validator TLPTagValidator (Some r)) r tag eq_refl),
            (tlp_validate_tag_bound (tlp_validator TLPv1TagValidator (Some r)) r tag eq_refl),
            (tlp_validate_tag_bound (tlp_validator TLPv2TagValidator (Some r)) r tag eq_refl).
    unfold tlp_verdict, TLPTagValidatorBase.allowed_tags.
    cbn [TLPTagValidatorBase.class tlp_validator]. unfold TLPTagValidator_allowed_tags.
    repeat case_decide; split; try done; try (by intros [? ?]); set_solver.
  - rewrite (tlp_validate_tag_bound (tlp_validator TLPTagValidator (Some r)) r tag eq_refl),
            (tlp_validate_tag_bound (tlp_validator TLPv1TagValidator (Some r)) r tag eq_refl),
            (tlp_validate_tag_bound (tlp_validator TLPv2TagValidator (Some r)) r tag eq_refl).
    unfold tlp_verdict, TLPTagValidatorBase.allowed_tags.
    cbn [TLPTagValidatorBase.class tlp_validator]. unfold TLPTagValidator_allowed_tags.
    repeat case_decide; split; try done; try (by intros [?|?]); try (by left); try (by right);
      set_solver.
Qed.

Lemma tlp_union_flags_iff_both_flag_witness :
  let test := {| namespace := "tlp"; name := "test" |} in
  tlp_emits (tlp_validator TLPv1TagValidator (Some 1%positive)) test
            (InvalidTLPTagIssue [1%positive] test)
  ∧ tlp_emits (tlp_validator TLPv2TagValidator (Some 1%positive)) test
              (InvalidTLPTagIssue [1%positive] test).
Proof.
  intros test.
  destruct (tlp_union_flags_iff_both_flag (Some 1%positive) 1%positive test
              (InvalidTLPTagIssue [1%positive] test)) as (_ & Hiff & _).
  apply Hiff. exists [InvalidTLPTagIssue [1%positive] test].
  split; [reflexivity|]. left.
Defined.

(** ** C10: the shape of the issues *)

(** C10. While a rule [r] is validated, [validate_tag] of the ATT&CK
    validator and of every TLP validator returns a list of at most one
    issue; and whatever list [validate_tag] returns, every issue in it has
    the severity MEDIUM, carries the tag that was checked, and implicates the
    singleton list of the rule recorded on the validator. *)
Theorem validate_tag_issue_shape
    (a : ATTACKTagValidator.t) (t : TLPTagValidatorBase.t) (r : RuleRef) (tag : SigmaRuleTag) :
  ATTACKTagValidator.rule a = Some r →
  TLPTagValidatorBase.rule t = Some r →
  (∃ issues, ATTACKTagValidator.validate_tag a tag = Return issues
             ∧ length issues ≤ 1
             ∧ ∀ issue, issue ∈ issues →
                 severity issue = MEDIUM ∧ issue_tag issue = tag ∧ issue_rules issue = [r])
  ∧ (∃ issues, TLPTagValidatorBase.validate_tag t tag = Return issues
               ∧ length issues ≤ 1
               ∧ ∀ issue, issue ∈ issues →
                   severity issue = MEDIUM ∧ issue_tag issue = tag ∧ issue_rules issue = [r])
  ∧ (∀ (a' : ATTACKTagValidator.t) issues,
       ATTACKTagValidator.validate_tag a' tag = Return issues →
       length issues ≤ 1
       ∧ ∀ issue, issue ∈ issues →
           severity issue = MEDIUM ∧ issue_tag issue = tag
           ∧ ∃ r', ATTACKTagValidator.rule a' = Some r' ∧ issue_rules issue = [r'])
  ∧ (∀ (t' : TLPTagValidatorBase.t) issues,
       TLPTagValidatorBase.validate_tag t' tag = Return issues →
       length issues ≤ 1
       ∧ ∀ issue, issue ∈ issues →
           severity issue = MEDIUM ∧ issue_tag issue = tag
           ∧ ∃ r', TLPTagValidatorBase.rule t' = Some r' ∧ issue_rules issue = [r']).
Proof.
  intros Ha Ht. split; [|split; [|split]].
  - rewrite (attack_validate_tag_bound a r tag Ha). eexists. split; [done|].
    unfold attack_verdict. case_decide; cbn; split; try lia.
    + intros issue ->%list_elem_of_singleton. done.
    + intros issue Hin. by apply elem_of_nil in Hin.
  - rewrite (tlp_validate_tag_bound t r tag Ht). eexists. split; [done|].
    unfold tlp_verdict. case_decide; cbn; split; try lia.
    + intros issue ->%list_elem_of_singleton. done.
    + intros issue Hin. by apply elem_of_nil in Hin.
  - intros a' issues. unfold ATTACKTagValidator.validate_tag.
    destruct (_ && _).
    + destruct (ATTACKTagValidator.rule a') as [r'|]; [|done].
      cbn. intros [= <-]. split; [cbn; lia|].
      intros issue ->%list_elem_of_singleton. eauto.
    + intros [= <-]. split; [cbn; lia|]. intros issue Hin. by apply elem_of_nil in Hin.
  - intros t' issues. unfold TLPTagValidatorBase.validate_tag.
    destruct (_ && _).
    + destruct (TLPTagValidatorBase.rule t') as [r'|]; [|done].
      cbn. intros [= <-]. split; [cbn; lia|].
      intros issue ->%list_elem_of_singleton. eauto.
    + intros [= <-]. split; [cbn; lia|]. intros issue Hin. by apply elem_of_nil in Hin.
Qed.

Lemma validate_tag_issue_shape_witness :
  let a := setattr_rule (ATTACKTagValidator.__init__ sample_tactics sample_techniques) 1%positive in
  let t := setattr_rule (TLPTagValidatorBase.new TLPv2TagValidator) 1%positive in
  let tag := {| namespace := "attack"; name := "test1" |} in
  ATTACKTagValidator.rule a = Some 1%positive
  ∧ TLPTagValidatorBase.rule t = Some 1%positive
  ∧ (∃ issues, ATTACKTagValidator.validate_tag a tag = Return issues ∧ length issues ≤ 1)
  ∧ (∃ issues, TLPTagValidatorBase.validate_tag t tag = Return issues ∧ length issues ≤ 1).
Proof.
  intros a t tag.
  destruct (validate_tag_issue_shape a t 1%positive tag eq_refl eq_refl)
    as ((la & Hla & Hlen & _) & (lt & Hlt & Hlent & _) & _).
  split; [reflexivity|]. split; [reflexivity|]. split; eauto.
Defined.

(** ** C7: validating the same rule twice *)

(** C7. For the ATT&CK validator and for every TLP validator, whatever rule
    the validator has recorded before, two [validate] calls in a row on the
    same rule instance both return, and they return the same list of
    issues. *)
Theorem validate_twice_same_issues
    (wa : world ATTACKTagValidator.t) (wt : world TLPTagValidatorBase.t) (r : RuleRef) :
  is_Some (objs wa !! r) →
  is_Some (objs wt !! r) →
  (∃ issues w1 w2,
     validate r wa = Return (issues, w1) ∧ validate r w1 = Return (issues, w2))
  ∧ (∃ issues w1 w2,
       validate r wt = Return (issues, w1) ∧ validate r w1 = Return (issues, w2)).
Proof.
  intros [rule Ha] [rule' Ht]. split.
  - eexists _, _, _. split; [by apply attack_validate_returns|].
    by rewrite (attack_validate_returns r rule (World _ _) Ha).
  - eexists _, _, _. split; [by apply tlp_validate_returns|].
    by rewrite (tlp_validate_returns r rule' (World _ _) Ht).
Qed.

Lemma validate_twice_same_issues_witness :
  let rule := rule_with_tags ["attack.test1"; "attack.test2"; "tlp.test"] in
  let wa := World {[ 1%positive := rule ]}
                  (ATTACKTagValidator.__init__ sample_tactics sample_techniques) in
  let wt := World {[ 1%positive := rule ]} (TLPTagValidatorBase.new TLPTagValidator) in
  is_Some (objs wa !! 1%positive)
  ∧ is_Some (objs wt !! 1%positive)
  ∧ (∃ issues w1 w2,
       validate 1%positive wa = Return (issues, w1)
       ∧ validate 1%positive w1 = Return (issues, w2))
  ∧ (∃ issues w1 w2,
       validate 1%positive wt = Return (issues, w1)
       ∧ validate 1%positive w1 = Return (issues, w2)).
Proof.
  intros rule wa wt.
  assert (Ha : is_Some (objs wa !! 1%positive)) by (exists rule; vm_compute; reflexivity).
  assert (Ht : is_Some (objs wt !! 1%positive)) by (exists rule; vm_compute; reflexivity).
  split; [exact Ha|]. split; [exact Ht|].
  exact (validate_twice_same_issues wa wt 1%positive Ha Ht).
Defined.

(** ** C8: the inspected rule is left unchanged *)

(** C8. A [validate] call of the ATT&CK validator or of a TLP validator on a
    rule of the store returns and leaves the store of rule objects as it
    was, so the inspected rule has the same identifier, title, detections,
    conditions and tags as before; the only effect is on the validator
    object, whose [rule] attribute now holds the rule.  This holds for any
    implementation of [validate_tag] whenever [validate] returns, and
    [finalize] changes nothing. *)
Theorem validate_leaves_rules_unchanged
    (wa : world ATTACKTagValidator.t) (wt : world TLPTagValidatorBase.t)
    (r : RuleRef) (rule : SigmaRule) :
  objs wa !! r = Some rule →
  objs wt !! r = Some rule →
  (∃ issues w', validate r wa = Return (issues, w')
                ∧ objs w' = objs wa
                ∧ objs w' !! r = Some rule
                ∧ self w' = setattr_rule (self wa) r)
  ∧ (∃ issues w', validate r wt = Return (issues, w')
                  ∧ objs w' = objs wt
                  ∧ objs w' !! r = Some rule
                  ∧ self w' = setattr_rule (self wt) r)
  ∧ (∀ (V : Type) (validator : SigmaTagValidator V) (w w' : world V) (r' : RuleRef) issues,
       validate r' w = Return (issues, w') →
       objs w' = objs w ∧ self w' = setattr_rule (self w) r')
  ∧ (∀ (V : Type) (validator : SigmaTagValidator V) (w : world V),
       finalize w = Return ([], w)).
Proof.
  intros Ha Ht. split; [|split; [|split]].
  - eexists _, _. split; [by apply attack_validate_returns|]. done.
  - eexists _, _. split; [by apply tlp_validate_returns|]. done.
  - intros V validator w w' r' issues Hrun.
    by rewrite (validate_state r' w w' issues Hrun).
  - done.
Qed.

Lemma validate_leaves_rules_unchanged_witness :
  let rule := rule_with_tags ["attack.test1"; "attack.test2"; "tlp.test"] in
  let wa := World {[ 1%positive := rule ]}
                  (ATTACKTagValidator.__init__ sample_tactics sample_techniques) in
  let wt := World {[ 1%positive := rule ]} (TLPTagValidatorBase.new TLPTagValidator) in
  objs wa !! 1%positive = Some rule
  ∧ objs wt !! 1%positive = Some rule
  ∧ (∃ issues w', validate 1%positive wa = Return (issues, w') ∧ objs w' = objs wa)
  ∧ (∃ issues w', validate 1%positive wt = Return (issues, w') ∧ objs w' = objs wt).
Proof.
  intros rule wa wt.
  assert (Ha : objs wa !! 1%positive = Some rule) by (vm_compute; reflexivity).
  assert (Ht : objs wt !! 1%positive = Some rule) by (vm_compute; reflexivity).
  destruct (validate_leaves_rules_unchanged wa wt 1%positive rule Ha Ht)
    as ((ia & wa' & Hra & Hoa & _) & (it & wt' & Hrt & Hot & _) & _).
  split; [exact Ha|]. split; [exact Ht|]. split; eauto.
Defined.

(** ** C6: construction with empty catalogs *)

(** A set comprehension is empty only over an empty collection. *)
Lemma set_map_gset_empty_inv (f : string → string) (X : gset string) :
  set_map (D:=gset string) f X = ∅ → X = ∅.
Proof.
  intros Hempty. apply elem_of_equiv_empty_L. intros x Hx.
  assert (Hfx : f x ∈ (∅ : gset string)).
  { rewrite <- Hempty. apply elem_of_map. eauto. }
  by apply not_elem_of_empty in Hfx.
Qed.

(** C6, counterexample. With both catalogs empty the constructor does not
    abort: it completes with a validator whose allow-set is empty, and that
    validator reports a tag of the namespace "attack". *)
Lemma attack_validator_constructed_from_empty_catalogs :
  ATTACKTagValidator_new ∅ ∅
    = Constructed {| ATTACKTagValidator.allowed_tags := ∅; ATTACKTagValidator.rule := None |}
  ∧ ATTACKTagValidator_new ∅ ∅ ≠ ConfigurationError
  ∧ ATTACKTagValidator.validate_tag
      (setattr_rule {| ATTACKTagValidator.allowed_tags := ∅; ATTACKTagValidator.rule := None |}
                    1%positive)
      {| namespace := "attack"; name := "t1001" |}
    = Return [InvalidATTACKTagIssue [1%positive] {| namespace := "attack"; name := "t1001" |}].
Proof. split; [reflexivity|]. split; [discriminate|reflexivity]. Qed.

(** C6, amended. The constructor of the ATT&CK validator checks nothing about
    the catalogs and completes for every pair of catalogs, never with a
    configuration error.  The allow-set it builds is empty exactly when both
    catalogs are empty, and a validator with an empty allow-set reports every
    tag of the namespace "attack" of the rule it validates. *)
Theorem attack_validator_construction_completes
    (tactics techniques : gmap string string) (r : RuleRef) (tag : SigmaRuleTag) :
  ∃ v, ATTACKTagValidator_new tactics techniques = Constructed v
       ∧ (ATTACKTagValidator.allowed_tags v = ∅ ↔ tactics = ∅ ∧ techniques = ∅)
       ∧ (ATTACKTagValidator.allowed_tags v = ∅ → namespace tag = "attack" →
          ATTACKTagValidator.validate_tag (setattr_rule v r) tag
          = Return [InvalidATTACKTagIssue [r] tag]).
Proof.
  eexists. split; [reflexivity|]. split.
  - cbn. split.
    + intros Hempty. apply empty_union_L in Hempty as [Htac Htec].
      apply set_map_gset_empty_inv in Htac, Htec.
      split; [by apply map_img_empty_inv_L in Htac|by apply dom_empty_inv_L in Htec].
    + intros [-> ->]. rewrite map_img_empty_L, dom_empty_L. set_solver.
  - intros Hempty Hn.
    assert (Hrule : ATTACKTagValidator.rule
                      (setattr_rule (ATTACKTagValidator.__init__ tactics techniques) r)
                    = Some r) by reflexivity.
    rewrite (attack_validate_tag_bound _ r tag Hrule).
    unfold attack_verdict. rewrite decide_True; [done|].
    split; [done|]. cbn [setattr_rule ATTACKTagValidator_validator ATTACKTagValidator.allowed_tags].
    rewrite Hempty. apply not_elem_of_empty.
Qed.

Lemma attack_validator_construction_completes_witness :
  ∃ v, ATTACKTagValidator_new ∅ ∅ = Constructed v
       ∧ ATTACKTagValidator.validate_tag (setattr_rule v 1%positive)
           {| namespace := "attack"; name := "t1001" |}
         = Return [InvalidATTACKTagIssue [1%positive] {| namespace := "attack"; name := "t1001" |}].
Proof.
  destruct (attack_validator_construction_completes ∅ ∅ 1%positive
              {| namespace := "attack"; name := "t1001" |})
    as (v & Hnew & Hempty & Hflag).
  exists v. split; [exact Hnew|].
  apply Hflag; [|reflexivity]. apply Hempty. split; reflexivity.
Defined.

(** ** Glob matching *)

Lemma glob_match_star (pattern n : string) :
  glob_match (String "*" pattern) n
  = glob_match pattern n
    || match n with
       | EmptyString => false
       | String _ n' => glob_match (String "*" pattern) n'
       end.
Proof. by destruct n. Qed.

Lemma glob_match_char (c : ascii) (pattern n : string) :
  c ≠ "*"%char →
  glob_match (String c pattern) n
  = match n with
    | EmptyString => false
    | String d n' => Ascii.eqb c d && glob_match pattern n'
    end.
Proof.
  intros Hc. cbn [glob_match].
  destruct (Ascii.eqb c "*") eqn:E; [by apply Ascii.eqb_eq in E|done].
Qed.

(** [glob_match] decides [glob]. *)
Lemma glob_match_spec (pattern n : string) : glob_match pattern n = true ↔ glob pattern n.
Proof.
  split.
  - revert n. induction pattern as [|c pattern IH]; intros n.
    + destruct n; [constructor|discriminate].
    + destruct (decide (c = "*"%char)) as [->|Hc].
      * induction n as [|d n IHn]; rewrite glob_match_star; intros Hm.
        -- rewrite orb_false_r in Hm. apply glob_star_none. by apply IH.
        -- apply orb_true_iff in Hm as [Hm|Hm].
           ++ apply glob_star_none. by apply IH.
           ++ apply glob_star_more. by apply IHn.
      * rewrite (glob_match_char c pattern n Hc). destruct n as [|d n]; [discriminate|].
        intros [Hcd Hm]%andb_true_iff. apply Ascii.eqb_eq in Hcd as <-.
        apply glob_char; [done|]. by apply IH.
  - induction 1 as [|c pattern n Hc _ IH|pattern n _ IH|pattern c n _ IH].
    + done.
    + rewrite (glob_match_char c pattern _ Hc). by rewrite Ascii.eqb_refl, IH.
    + rewrite glob_match_star. by rewrite IH.
    + rewrite glob_match_star. rewrite IH. apply orb_true_r.
Qed.

(** A pattern made of a prefix and a final [*] matches every name that
    starts with the prefix. *)
Lemma glob_prefix (prefix rest : string) : glob (prefix +:+ "*") (prefix +:+ rest).
Proof.
  induction prefix as [|c prefix IH]; cbn.
  - induction rest as [|d rest IH]; [apply glob_star_none, glob_empty|].
    by apply glob_star_more.
  - destruct (decide (c = "*"%char)) as [->|Hc].
    + by apply glob_star_more, glob_star_none.
    + by apply glob_char.
Qed.

(** ** The condition reference resolver *)

Lemma elem_of_condition_referenced_ids (detection_names : list string) (cond : ConditionItem)
    (n : string) :
  n ∈ condition_referenced_ids detection_names cond ↔ references detection_names cond n.
Proof.
  split.
  - induction cond as [m|q p|q|a IHa b IHb|a IHa b IHb|a IHa]; cbn.
    + case_bool_decide as Hm; [|by intros ?%not_elem_of_empty].
      intros ->%elem_of_singleton. by constructor.
    + rewrite elem_of_list_to_set, list_elem_of_filter. intros [Hg Hn].
      constructor; [done|]. apply glob_match_spec. by apply Is_true_true.
    + rewrite elem_of_list_to_set. by constructor.
    + intros [?|?]%elem_of_union; [apply references_and_l|apply references_and_r]; auto.
    + intros [?|?]%elem_of_union; [apply references_or_l|apply references_or_r]; auto.
    + intros ?. apply references_not. auto.
  - induction 1 as [m Hm|q p m Hm Hg|q m Hm|a b m _ IH|a b m _ IH|a b m _ IH|a b m _ IH|a m _ IH];
      cbn.
    + rewrite bool_decide_eq_true_2 by done. by apply elem_of_singleton.
    + rewrite elem_of_list_to_set, list_elem_of_filter. split; [|done].
      apply Is_true_true. by apply glob_match_spec.
    + by rewrite elem_of_list_to_set.
    + apply elem_of_union. by left.
    + apply elem_of_union. by right.
    + apply elem_of_union. by left.
    + apply elem_of_union. by right.
    + done.
Qed.

(** The names the validator takes as referenced are the reachable ones. *)
Lemma elem_of_referenced_ids (rule : SigmaRule) (n : string) :
  n ∈ ⋃ (condition_referenced_ids (detections rule).*1 <$> condition rule)
  ↔ reachable rule n.
Proof.
  rewrite elem_of_union_list. unfold reachable. split.
  - intros (X & HX & Hn). apply list_elem_of_fmap in HX as (cond & -> & Hcond).
    exists cond. split; [done|]. by apply elem_of_condition_referenced_ids.
  - intros (cond & Hcond & Href). eexists. split.
    + apply list_elem_of_fmap. eauto.
    + by apply elem_of_condition_referenced_ids.
Qed.

(** ** C4: the dangling-detection validator *)

(** The issues of the validator name the defined names that are not
    referenced, in the order of the detection mapping. *)
Lemma dangling_validate_names (ref : RuleRef) (rule : SigmaRule) :
  detection_name <$> DanglingDetectionValidator_validate ref rule
  = filter (λ n, n ∉ ⋃ (condition_referenced_ids (detections rule).*1 <$> condition rule))
           (detections rule).*1.
Proof.
  unfold DanglingDetectionValidator_validate. rewrite <- list_fmap_compose.
  apply list_fmap_id.
Qed.

Lemma elem_of_dangling_validate (ref : RuleRef) (rule : SigmaRule) (issue : DanglingDetectionIssue) :
  issue ∈ DanglingDetectionValidator_validate ref rule
  ↔ ∃ n, issue = {| dangling_rules := [ref]; detection_name := n |}
         ∧ n ∈ (detections rule).*1 ∧ ¬ reachable rule n.
Proof.
  unfold DanglingDetectionValidator_validate. rewrite list_elem_of_fmap.
  setoid_rewrite list_elem_of_filter. setoid_rewrite elem_of_referenced_ids.
  naive_solver.
Qed.

(** A rule all of whose defined names are reachable has no issue. *)
Lemma dangling_validate_nil (ref : RuleRef) (rule : SigmaRule) :
  (∀ n, n ∈ (detections rule).*1 → reachable rule n) →
  DanglingDetectionValidator_validate ref rule = [].
Proof.
  intros Hall. apply elem_of_nil_inv. intros issue.
  rewrite elem_of_dangling_validate. intros (n & _ & Hn & Hno). by apply Hno, Hall.
Qed.

(** C4. On a single rule the dangling-detection validator emits exactly one
    issue for each defined sub-detection name that is not reachable from a
    condition of the rule, where a literal reference, a wildcard pattern the
    name matches and the keyword "them" all count as reaching; the issues
    come in the order of the detection mapping.  Detections a, b, c with the
    condition "(a or b) and c" give no issue; with one more detection d that
    is not referenced they give exactly one issue, naming d; "1 of ref*" over
    ref1, ref2, ref3 gives no issue, as does any pattern made of a prefix
    and "*" over names that start with the prefix; and a condition "1 of
    them" gives no issue whatever the detections are. *)
Theorem dangling_detection_issues (ref : RuleRef) (rule : SigmaRule) :
  NoDup (detections rule).*1 →
  (∀ issue, issue ∈ DanglingDetectionValidator_validate ref rule
            ↔ ∃ n, issue = {| dangling_rules := [ref]; detection_name := n |}
                   ∧ n ∈ (detections rule).*1 ∧ ¬ reachable rule n)
  ∧ NoDup (DanglingDetectionValidator_validate ref rule)
  ∧ detection_name <$> DanglingDetectionValidator_validate ref rule
      `sublist_of` (detections rule).*1
  ∧ (∀ a b c da db dc,
       DanglingDetectionValidator_validate ref
         (rule_with_detections [(a, da); (b, db); (c, dc)]
            (ConditionAND (ConditionOR (ConditionIdentifier a) (ConditionIdentifier b))
                          (ConditionIdentifier c)))
       = [])
  ∧ (∀ a b c d da db dc dd,
       d ∉ [a; b; c] →
       DanglingDetectionValidator_validate ref
         (rule_with_detections [(a, da); (b, db); (c, dc); (d, dd)]
            (ConditionAND (ConditionOR (ConditionIdentifier a) (ConditionIdentifier b))
                          (ConditionIdentifier c)))
       = [ {| dangling_rules := [ref]; detection_name := d |} ])
  ∧ (∀ q d1 d2 d3,
       DanglingDetectionValidator_validate ref
         (rule_with_detections [("ref1", d1); ("ref2", d2); ("ref3", d3)]
            (ConditionSelectorPattern q "ref*"))
       = [])
  ∧ (∀ q prefix ds,
       (∀ n, n ∈ ds.*1 → ∃ rest, n = prefix +:+ rest) →
       DanglingDetectionValidator_validate ref
         (rule_with_detections ds (ConditionSelectorPattern q (prefix +:+ "*")))
       = [])
  ∧ (∀ q rule',
       ConditionSelectorThem q ∈ condition rule' →
       DanglingDetectionValidator_validate ref rule' = []).
Proof.
  intros Hnodup. split; [|split; [|split; [|split; [|split; [|split; [|split]]]]]].
  - apply elem_of_dangling_validate.
  - unfold DanglingDetectionValidator_validate. apply NoDup_fmap_2_strong.
    + by intros n1 n2 _ _ [= ->].
    + by apply list.NoDup_filter.
  - rewrite dangling_validate_names. apply sublist_filter.
  - intros a b c da db dc. apply dangling_validate_nil. intros n Hn.
    eexists. split; [by left|]. cbn in Hn |- *.
    apply elem_of_cons in Hn as [->|Hn]; [|apply elem_of_cons in Hn as [->|Hn]].
    + apply references_and_l, references_or_l. constructor. set_solver.
    + apply references_and_l, references_or_r. constructor. set_solver.
    + apply list_elem_of_singleton in Hn as ->.
      apply references_and_r. constructor. set_solver.
  - intros a b c d da db dc dd Hd.
    set (rule0 := rule_with_detections _ _).
    assert (Hreach : ∀ n, n ∈ [a; b; c] → reachable rule0 n).
    { intros n Hn. eexists. split; [by left|]. cbn.
      apply elem_of_cons in Hn as [->|Hn]; [|apply elem_of_cons in Hn as [->|Hn]].
      - apply references_and_l, references_or_l. constructor. set_solver.
      - apply references_and_l, references_or_r. constructor. set_solver.
      - apply list_elem_of_singleton in Hn as ->.
        apply references_and_r. constructor. set_solver. }
    assert (Hdangling : ¬ reachable rule0 d).
    { intros (cond & Hcond & Href). apply list_elem_of_singleton in Hcond as ->.
      inversion Href as [| | |x y z Hl|x y z Hr| | |]; subst.
      - inversion Hl as [| | | | |x y z Hl'|x y z Hr'|]; subst.
        + inversion Hl'; subst. set_solver.
        + inversion Hr'; subst. set_solver.
      - inversion Hr; subst. set_solver. }
    unfold DanglingDetectionValidator_validate.
    change ((detections rule0).*1) with [a; b; c; d].
    assert (Hin : ∀ n, n ∈ [a; b; c] →
              ¬ (n ∉ ⋃ (condition_referenced_ids (detections rule0).*1 <$> condition rule0))).
    { intros n Hn Hno. by apply Hno, elem_of_referenced_ids, Hreach. }
    rewrite (filter_cons_False _ a) by (apply Hin; set_solver).
    rewrite (filter_cons_False _ b) by (apply Hin; set_solver).
    rewrite (filter_cons_False _ c) by (apply Hin; set_solver).
    rewrite (filter_cons_True _ d)
      by (intros Hx; by apply Hdangling, (elem_of_referenced_ids rule0 d)).
    done.
  - intros q d1 d2 d3. apply dangling_validate_nil. intros n Hn.
    eexists. split; [by left|]. cbn in Hn |- *. constructor; [done|].
    apply glob_match_spec.
    repeat (apply elem_of_cons in Hn as [->|Hn]; [done|]). by apply elem_of_nil in Hn.
  - intros q prefix ds Hprefix. apply dangling_validate_nil. intros n Hn.
    eexists. split; [by left|]. constructor; [done|].
    destruct (Hprefix n Hn) as [rest ->]. apply glob_prefix.
  - intros q rule' Hthem. apply dangling_validate_nil. intros n Hn.
    eexists. split; [done|]. by constructor.
Qed.

Lemma dangling_detection_issues_witness :
  NoDup (detections rule_dangling_detection).*1
  ∧ DanglingDetectionValidator_validate 1%positive rule_dangling_detection
    = [ {| dangling_rules := [1%positive]; detection_name := "unreferenced" |} ]
  ∧ DanglingDetectionValidator_validate 1%positive rule_dangling_detection_valid = []
  ∧ DanglingDetectionValidator_validate 1%positive rule_x_of_wildcard = []
  ∧ DanglingDetectionValidator_validate 1%positive rule_x_of_them = [].
Proof.
  assert (Hnodup : NoDup (detections rule_dangling_detection).*1).
  { apply (bool_decide_unpack _). vm_compute. exact I. }
  destruct (dangling_detection_issues 1%positive rule_dangling_detection Hnodup)
    as (_ & _ & _ & Habc & Habcd & _ & Hprefix & Hthem).
  split; [exact Hnodup|]. split; [|split; [|split]].
  - apply (Habcd "referenced1" "referenced2" "referenced3" "unreferenced").
    apply (bool_decide_unpack _). vm_compute. exact I.
  - apply (Habc "referenced1" "referenced2" "referenced3").
  - apply (Hprefix OneOf "referenced" referenced_detections).
    intros n Hn. cbn in Hn.
    apply elem_of_cons in Hn as [->|Hn]; [by exists "1"|].
    apply elem_of_cons in Hn as [->|Hn]; [by exists "2"|].
    apply list_elem_of_singleton in Hn as ->. by exists "3".
  - apply (Hthem OneOf). by left.
Defined.

(** ** The checks of the modifier-combination validator *)

Lemma existsb_contains_family (mods : list SigmaModifier) :
  existsb contains_family mods = true ↔ ∃ m, m ∈ mods ∧ contains_family m = true.
Proof.
  induction mods as [|m mods IH]; cbn.
  - split; [done|]. intros (m & Hm & _). by apply elem_of_nil in Hm.
  - rewrite orb_true_iff, IH. split.
    + intros [Hm|(m' & Hin & Hm')]; [exists m; split; [left|done]|].
      exists m'. split; [by right|done].
    + intros (m' & [->|Hin]%elem_of_cons & Hm'); [by left|]. right. eauto.
Qed.

Lemma existsb_contains_family_false (mods : list SigmaModifier) :
  existsb contains_family mods = false ↔ ∀ m, m ∈ mods → contains_family m = false.
Proof.
  rewrite <- not_true_iff_false, existsb_contains_family. split.
  - intros Hno m Hm. apply not_true_iff_false. intros Hc. apply Hno. eauto.
  - intros Hall (m & Hm & Hc). by rewrite (Hall m Hm) in Hc.
Qed.

(** The check on "base64offset" fires exactly when some "base64offset" of the
    sequence has no modifier of the "contains" family after it. *)
Lemma base64offset_without_contains_spec (mods : list SigmaModifier) :
  base64offset_without_contains mods = true
  ↔ ∃ before later,
      mods = before ++ SigmaBase64OffsetModifier :: later
      ∧ ∀ m, m ∈ later → contains_family m = false.
Proof.
  induction mods as [|m mods IH]; cbn.
  - split; [done|]. intros (before & later & Heq & _). by destruct before.
  - rewrite orb_true_iff, andb_true_iff, negb_true_iff, bool_decide_eq_true,
      existsb_contains_family_false, IH.
    split.
    + intros [[-> Hlater]|(before & later & -> & Hlater)].
      * by exists [], mods.
      * by exists (m :: before), later.
    + intros (before & later & Heq & Hlater). destruct before as [|m' before].
      * injection Heq as -> ->. by left.
      * injection Heq as -> ->. right. eauto.
Qed.

Section modifier_checks.
Variable declared : SigmaModifier → bool.

(** The set reported as applied several times holds the modifiers of the
    declared set that occur more than once. *)
Lemma elem_of_multiple_modifiers (mods : list SigmaModifier) (m : SigmaModifier) :
  m ∈ multiple_modifiers declared mods
  ↔ declared m = true ∧ 1 < count_occ SigmaModifier_eq_dec mods m.
Proof.
  unfold multiple_modifiers. rewrite elem_of_list_to_set, list_elem_of_filter.
  rewrite Is_true_true. split; [tauto|]. intros [Hd Hc]. split; [done|].
  apply list_elem_of_In, (count_occ_In SigmaModifier_eq_dec). lia.
Qed.

(** The issues of each kind among those of one field match. *)
Lemma validate_detection_item_all (ref : RuleRef) (item : SigmaDetectionItem) :
  filter is_all_without_contains (validate_detection_item declared ref item)
  = if bool_decide (field item ≠ None)
       && bool_decide (SigmaAllModifier ∈ modifiers item)
       && negb (existsb contains_family (modifiers item))
    then [AllWithoutContainsModifierIssue [ref] item] else [].
Proof.
  unfold validate_detection_item. rewrite !list.filter_app.
  by repeat match goal with |- context [if ?b then _ else _] => destruct b end.
Qed.

Lemma validate_detection_item_base64offset (ref : RuleRef) (item : SigmaDetectionItem) :
  filter is_base64offset_without_contains (validate_detection_item declared ref item)
  = if base64offset_without_contains (modifiers item)
    then [Base64OffsetWithoutContainsModifierIssue [ref] item] else [].
Proof.
  unfold validate_detection_item. rewrite !list.filter_app.
  by repeat match goal with |- context [if ?b then _ else _] => destruct b end.
Qed.

Lemma validate_detection_item_multiple (ref : RuleRef) (item : SigmaDetectionItem) :
  filter is_modifier_applied_multiple (validate_detection_item declared ref item)
  = if bool_decide (multiple_modifiers declared (modifiers item) ≠ ∅)
    then [ModifierAppliedMultipleIssue [ref] item (multiple_modifiers declared (modifiers item))]
    else [].
Proof.
  unfold validate_detection_item. rewrite !list.filter_app.
  by repeat match goal with |- context [if ?b then _ else _] => destruct b end.
Qed.

End modifier_checks.

(** ** C5: "all" and "base64offset" without "contains" *)

(** C5. A field match with a field name that uses "all" and no modifier of
    the "contains" family gets exactly one all-without-contains issue; an
    unbound field match gets none, and so does one with a modifier of the
    "contains" family.  A field match in which some "base64offset" has no
    modifier of the "contains" family later in the sequence gets exactly one
    base64offset-without-contains issue, and one in which every
    "base64offset" has one later gets none.  So "field|all" yields one
    all-without-contains issue and nothing else, "|all" and
    "field|contains|all" yield nothing, "field|base64offset" yields one
    base64offset-without-contains issue and nothing else, and
    "field|base64offset|contains" yields nothing. *)
Theorem all_and_base64offset_without_contains
    (declared : SigmaModifier → bool) (ref : RuleRef) (item : SigmaDetectionItem) :
  let issues := validate_detection_item declared ref item in
  (field item ≠ None → SigmaAllModifier ∈ modifiers item →
   (∀ m, m ∈ modifiers item → contains_family m = false) →
   filter is_all_without_contains issues = [AllWithoutContainsModifierIssue [ref] item])
  ∧ (field item = None → filter is_all_without_contains issues = [])
  ∧ ((∃ m, m ∈ modifiers item ∧ contains_family m = true) →
     filter is_all_without_contains issues = [])
  ∧ ((∃ before later,
        modifiers item = before ++ SigmaBase64OffsetModifier :: later
        ∧ ∀ m, m ∈ later → contains_family m = false) →
     filter is_base64offset_without_contains issues
     = [Base64OffsetWithoutContainsModifierIssue [ref] item])
  ∧ ((∀ before later,
        modifiers item = before ++ SigmaBase64OffsetModifier :: later →
        ∃ m, m ∈ later ∧ contains_family m = true) →
     filter is_base64offset_without_contains issues = [])
  ∧ (∀ f vals,
       validate_detection_item declared ref
         {| field := Some f; modifiers := [SigmaAllModifier]; value := vals |}
       = [AllWithoutContainsModifierIssue [ref]
            {| field := Some f; modifiers := [SigmaAllModifier]; value := vals |}])
  ∧ (∀ vals,
       validate_detection_item declared ref
         {| field := None; modifiers := [SigmaAllModifier]; value := vals |}
       = [])
  ∧ (∀ f vals,
       validate_detection_item declared ref
         {| field := Some f; modifiers := [SigmaContainsModifier; SigmaAllModifier];
            value := vals |}
       = [])
  ∧ (∀ f vals,
       validate_detection_item declared ref
         {| field := f; modifiers := [SigmaBase64OffsetModifier]; value := vals |}
       = [Base64OffsetWithoutContainsModifierIssue [ref]
            {| field := f; modifiers := [SigmaBase64OffsetModifier]; value := vals |}])
  ∧ (∀ f vals,
       validate_detection_item declared ref
         {| field := f; modifiers := [SigmaBase64OffsetModifier; SigmaContainsModifier];
            value := vals |}
       = []).
Proof.
  intros issues. subst issues.
  assert (Hsingle : ∀ l : list SigmaModifier, NoDup l → multiple_modifiers declared l = ∅).
  { intros l Hl. apply elem_of_equiv_empty_L. intros m [_ Hc]%elem_of_multiple_modifiers.
    pose proof (proj1 (NoDup_count_occ SigmaModifier_eq_dec l)
                  (proj1 (NoDup_ListNoDup l) Hl) m). lia. }
  repeat apply conj.
  - intros Hf Hall Hno. rewrite validate_detection_item_all.
    rewrite !bool_decide_eq_true_2 by done.
    by rewrite (proj2 (existsb_contains_family_false _) Hno).
  - intros Hf. rewrite validate_detection_item_all.
    by rewrite (bool_decide_eq_false_2 (field item ≠ None)) by (by intros ?).
  - intros Hc. rewrite validate_detection_item_all.
    rewrite (proj2 (existsb_contains_family _) Hc). by rewrite andb_false_r.
  - intros Hb. rewrite validate_detection_item_base64offset.
    by rewrite (proj2 (base64offset_without_contains_spec _) Hb).
  - intros Hb. rewrite validate_detection_item_base64offset.
    destruct (base64offset_without_contains (modifiers item)) eqn:E; [|done].
    apply base64offset_without_contains_spec in E as (before & later & Heq & Hno).
    destruct (Hb before later Heq) as (m & Hm & Hc). by rewrite (Hno m Hm) in Hc.
  - intros f vals. unfold validate_detection_item. cbn [field modifiers value].
    rewrite Hsingle by (apply (bool_decide_unpack _); vm_compute; exact I). done.
  - intros vals. unfold validate_detection_item. cbn [field modifiers value].
    rewrite Hsingle by (apply (bool_decide_unpack _); vm_compute; exact I). done.
  - intros f vals. unfold validate_detection_item. cbn [field modifiers value].
    rewrite Hsingle by (apply (bool_decide_unpack _); vm_compute; exact I). done.
  - intros f vals. unfold validate_detection_item. cbn [field modifiers value].
    rewrite Hsingle by (apply (bool_decide_unpack _); vm_compute; exact I).
    by destruct f.
  - intros f vals. unfold validate_detection_item. cbn [field modifiers value].
    rewrite Hsingle by (apply (bool_decide_unpack _); vm_compute; exact I).
    by destruct f.
Qed.

Lemma all_and_base64offset_without_contains_witness :
  let item := {| field := Some "field"; modifiers := [SigmaAllModifier];
                 value := ["value1"; "value2"; "value3"] |} in
  let unbound := {| field := None; modifiers := [SigmaAllModifier];
                    value := ["value1"; "value2"; "value3"] |} in
  let offset := {| field := Some "field"; modifiers := [SigmaBase64OffsetModifier];
                   value := ["value"] |} in
  filter is_all_without_contains (validate_detection_item declared_except_base64 1%positive item)
  = [AllWithoutContainsModifierIssue [1%positive] item]
  ∧ filter is_all_without_contains
      (validate_detection_item declared_except_base64 1%positive unbound) = []
  ∧ filter is_base64offset_without_contains
      (validate_detection_item declared_except_base64 1%positive offset)
    = [Base64OffsetWithoutContainsModifierIssue [1%positive] offset].
Proof.
  intros item unbound offset. split; [|split].
  - destruct (all_and_base64offset_without_contains declared_except_base64 1%positive item)
      as (Hall & _).
    apply Hall.
    + discriminate.
    + apply (bool_decide_unpack _). vm_compute. exact I.
    + intros m Hm. apply list_elem_of_singleton in Hm. rewrite Hm. reflexivity.
  - destruct (all_and_base64offset_without_contains declared_except_base64 1%positive unbound)
      as (_ & Hunbound & _).
    apply Hunbound. reflexivity.
  - destruct (all_and_base64offset_without_contains declared_except_base64 1%positive offset)
      as (_ & _ & _ & Hoffset & _).
    apply Hoffset. exists [], []. split; [reflexivity|].
    intros m Hm. by apply elem_of_nil in Hm.
Defined.

(** ** C3: modifiers applied more than once *)

(** C3, counterexample. "base64" applied twice is not reported: the
    validator returns no issue for the field match, although "base64" occurs
    more than once in its modifier sequence. *)
Lemma repeated_base64_not_flagged :
  let item := {| field := Some "field";
                 modifiers := [SigmaBase64Modifier; SigmaBase64Modifier];
                 value := ["value"] |} in
  1 < count_occ SigmaModifier_eq_dec (modifiers item) SigmaBase64Modifier
  ∧ validate_detection_item declared_except_base64 1%positive item = []
  ∧ InvalidModifierCombinationsValidator_validate declared_except_base64 1%positive
      (rule_with_detection_item item) = [].
Proof. split; [cbn; lia|]. split; vm_compute; reflexivity. Qed.

(** C3, amended. The validator reports the modifiers of its declared set,
    which holds "base64offset" and "contains" and does not hold "base64",
    that occur more than once in the modifier sequence of a field match: it
    emits at most one such issue per field match, one exactly when some
    declared modifier is repeated, and the issue carries the field match with
    its full modifier sequence and the set of the repeated declared
    modifiers.  The sequence base64offset, base64offset, contains, contains
    yields exactly one issue, with the set of base64offset and contains; the
    sequence base64, base64 yields no issue. *)
Theorem repeated_declared_modifiers_flagged
    (declared : SigmaModifier → bool) (ref : RuleRef) (item : SigmaDetectionItem) :
  declared SigmaBase64Modifier = false →
  declared SigmaBase64OffsetModifier = true →
  declared SigmaContainsModifier = true →
  let issues := validate_detection_item declared ref item in
  (∀ m, (∃ multiple, ModifierAppliedMultipleIssue [ref] item multiple ∈ issues ∧ m ∈ multiple)
        ↔ declared m = true ∧ 1 < count_occ SigmaModifier_eq_dec (modifiers item) m)
  ∧ (∀ issue, issue ∈ issues → is_modifier_applied_multiple issue = true →
       ∃ multiple,
         issue = ModifierAppliedMultipleIssue [ref] item multiple
         ∧ ∀ m, m ∈ multiple
                ↔ declared m = true ∧ 1 < count_occ SigmaModifier_eq_dec (modifiers item) m)
  ∧ length (filter is_modifier_applied_multiple issues) ≤ 1
  ∧ (∀ f vals,
       validate_detection_item declared ref
         {| field := f;
            modifiers := [SigmaBase64OffsetModifier; SigmaBase64OffsetModifier;
                          SigmaContainsModifier; SigmaContainsModifier];
            value := vals |}
       = [ModifierAppliedMultipleIssue [ref]
            {| field := f;
               modifiers := [SigmaBase64OffsetModifier; SigmaBase64OffsetModifier;
                             SigmaContainsModifier; SigmaContainsModifier];
               value := vals |}
            {[ SigmaBase64OffsetModifier; SigmaContainsModifier ]}])
  ∧ (∀ f vals,
       validate_detection_item declared ref
         {| field := f; modifiers := [SigmaBase64Modifier; SigmaBase64Modifier];
            value := vals |}
       = []).
Proof.
  intros Hbase64 Hoffset Hcontains issues. subst issues.
  assert (Hmem : ∀ issue, issue ∈ validate_detection_item declared ref item →
            is_modifier_applied_multiple issue = true →
            issue = ModifierAppliedMultipleIssue [ref] item
                      (multiple_modifiers declared (modifiers item))
            ∧ multiple_modifiers declared (modifiers item) ≠ ∅).
  { intros issue Hin His.
    assert (Hf : issue ∈ filter is_modifier_applied_multiple
                           (validate_detection_item declared ref item)).
    { apply list_elem_of_filter. split; [by apply Is_true_true|done]. }
    rewrite validate_detection_item_multiple in Hf.
    case_bool_decide as Hne; [|by apply elem_of_nil in Hf].
    by apply list_elem_of_singleton in Hf as ->. }
  repeat apply conj.
  - intros m. split.
    + intros (multiple & Hin & Hm). destruct (Hmem _ Hin eq_refl) as [[= ->] _].
      by apply elem_of_multiple_modifiers.
    + intros Hm. apply elem_of_multiple_modifiers in Hm.
      exists (multiple_modifiers declared (modifiers item)). split; [|done].
      assert (Hf : ModifierAppliedMultipleIssue [ref] item
                     (multiple_modifiers declared (modifiers item))
                   ∈ filter is_modifier_applied_multiple
                       (validate_detection_item declared ref item)).
      { rewrite validate_detection_item_multiple.
        rewrite bool_decide_eq_true_2; [by left|]. intros Hempty.
        rewrite Hempty in Hm. by apply not_elem_of_empty in Hm. }
      by apply list_elem_of_filter in Hf as [_ Hf].
  - intros issue Hin His. destruct (Hmem issue Hin His) as [-> _].
    eexists. split; [done|]. intros m. apply elem_of_multiple_modifiers.
  - rewrite validate_detection_item_multiple. case_bool_decide; cbn; lia.
  - intros f vals.
    assert (Hset : multiple_modifiers declared
                     [SigmaBase64OffsetModifier; SigmaBase64OffsetModifier;
                      SigmaContainsModifier; SigmaContainsModifier]
                   = {[ SigmaBase64OffsetModifier; SigmaContainsModifier ]}).
    { apply set_eq. intros m. rewrite elem_of_multiple_modifiers.
      rewrite elem_of_union, !elem_of_singleton. split.
      - intros [_ Hc]. destruct m; cbn in Hc; try lia; auto.
      - intros [->| ->]; split; try assumption; cbn; lia. }
    unfold validate_detection_item. cbn [field modifiers value]. rewrite Hset.
    rewrite (bool_decide_eq_true_2
               (({[ SigmaBase64OffsetModifier; SigmaContainsModifier ]} : gset SigmaModifier) ≠ ∅)).
    + by destruct f.
    + intros Hempty.
      assert (Hin : SigmaContainsModifier ∈ (∅ : gset SigmaModifier)).
      { rewrite <- Hempty. apply elem_of_union. right. by apply elem_of_singleton. }
      by apply not_elem_of_empty in Hin.
  - intros f vals.
    assert (Hset : multiple_modifiers declared [SigmaBase64Modifier; SigmaBase64Modifier] = ∅).
    { apply elem_of_equiv_empty_L. intros m [Hd Hc]%elem_of_multiple_modifiers.
      destruct m; cbn in Hc; try lia. congruence. }
    unfold validate_detection_item. cbn [field modifiers value]. rewrite Hset.
    by destruct f.
Qed.

Lemma repeated_declared_modifiers_flagged_witness :
  let item := {| field := Some "field";
                 modifiers := [SigmaBase64OffsetModifier; SigmaBase64OffsetModifier;
                               SigmaContainsModifier; SigmaContainsModifier];
                 value := ["value"] |} in
  declared_except_base64 SigmaBase64Modifier = false
  ∧ declared_except_base64 SigmaBase64OffsetModifier = true
  ∧ declared_except_base64 SigmaContainsModifier = true
  ∧ validate_detection_item declared_except_base64 1%positive item
    = [ModifierAppliedMultipleIssue [1%positive] item
         {[ SigmaBase64OffsetModifier; SigmaContainsModifier ]}]
  ∧ length (filter is_modifier_applied_multiple
              (validate_detection_item declared_except_base64 1%positive item)) ≤ 1.
Proof.
  intros item.
  destruct (repeated_declared_modifiers_flagged declared_except_base64 1%positive item
              eq_refl eq_refl eq_refl) as (_ & _ & Hlen & Hexample & _).
  split; [reflexivity|]. split; [reflexivity|]. split; [reflexivity|].
  split; [apply Hexample | exact Hlen].
Defined.

(** * Further properties of the tag validators *)

(** ** The allow-set of the ATT&CK validator is in normal form *)

Lemma ascii_lower_not_upper (c : ascii) : is_upper (ascii_lower c) = false.
Proof. by destruct c as [[] [] [] [] [] [] [] []]. Qed.

Lemma ascii_lower_idemp (c : ascii) : ascii_lower (ascii_lower c) = ascii_lower c.
Proof. by destruct c as [[] [] [] [] [] [] [] []]. Qed.

Lemma lower_no_upper (s : string) : string_exists is_upper (lower s) = false.
Proof.
  induction s as [|c s IH]; [done|]. cbn.
  by rewrite ascii_lower_not_upper, (IH : string_exists _ (string_map _ _) = _).
Qed.

Lemma lower_idemp (s : string) : lower (lower s) = lower s.
Proof.
  induction s as [|c s IH]; [done|]. cbn.
  by rewrite ascii_lower_idemp, (IH : string_map _ (string_map _ _) = _).
Qed.

(** Replacing "-" by "_" introduces no upper-case letter and commutes with
    lower-casing. *)
Lemma replace_dash_no_upper (s : string) :
  string_exists is_upper (replace "-" "_" s) = string_exists is_upper s.
Proof.
  induction s as [|c s IH]; [done|]. cbn.
  rewrite (IH : string_exists _ (string_map _ _) = _). f_equal.
  destruct (Ascii.eqb c "-") eqn:E; [|done]. by apply Ascii.eqb_eq in E as ->.
Qed.

Lemma lower_replace_dash (s : string) :
  lower (replace "-" "_" s) = replace "-" "_" (lower s).
Proof.
  induction s as [|c s IH]; [done|]. cbn.
  rewrite (IH : string_map _ (string_map _ _) = string_map _ (string_map _ _)). f_equal.
  by destruct c as [[] [] [] [] [] [] [] []].
Qed.

(** Every name of the allow-set is its own lower-casing and holds no
    upper-case letter. *)
Lemma attack_allowed_tags_normal (tactics techniques : gmap string string) (x : string) :
  x ∈ ATTACKTagValidator.allowed_tags (ATTACKTagValidator.__init__ tactics techniques) →
  lower x = x ∧ string_exists is_upper x = false.
Proof.
  intros [(key & d & _ & ->)|(key & d & _ & ->)]%elem_of_attack_allowed_tags.
  - split.
    + by rewrite lower_replace_dash, lower_idemp.
    + by rewrite replace_dash_no_upper, lower_no_upper.
  - split; [apply lower_idemp|apply lower_no_upper].
Qed.

(** X1. Whatever the catalogs, every name of the allow-set the constructor
    builds is lower-case, so the ATT&CK validator reports every tag of the
    namespace "attack" whose name holds an upper-case letter, even when the
    name is a technique key as the catalog spells it. *)
Theorem attack_upper_case_name_flagged
    (tactics techniques : gmap string string) (r : RuleRef) (tag : SigmaRuleTag) :
  namespace tag = "attack" →
  string_exists is_upper (name tag) = true →
  (∀ x, x ∈ ATTACKTagValidator.allowed_tags (ATTACKTagValidator.__init__ tactics techniques) →
        lower x = x)
  ∧ ATTACKTagValidator.validate_tag
      (setattr_rule (ATTACKTagValidator.__init__ tactics techniques) r) tag
    = Return [InvalidATTACKTagIssue [r] tag].
Proof.
  intros Hn Hupper. split.
  - intros x Hx. by apply (attack_allowed_tags_normal tactics techniques).
  - assert (Hrule : ATTACKTagValidator.rule
                      (setattr_rule (ATTACKTagValidator.__init__ tactics techniques) r)
                    = Some r) by reflexivity.
    rewrite (attack_validate_tag_bound _ r tag Hrule).
    unfold attack_verdict. rewrite decide_True; [done|]. split; [done|].
    intros Hin. apply (attack_allowed_tags_normal tactics techniques) in Hin as [_ Hno].
    congruence.
Qed.

Lemma attack_upper_case_name_flagged_witness :
  let tag := {| namespace := "attack"; name := "T1001" |} in
  namespace tag = "attack"
  ∧ string_exists is_upper (name tag) = true
  ∧ sample_techniques !! "T1001" = Some "Data Obfuscation"
  ∧ ATTACKTagValidator.validate_tag
      (setattr_rule (ATTACKTagValidator.__init__ sample_tactics sample_techniques) 1%positive) tag
    = Return [InvalidATTACKTagIssue [1%positive] tag].
Proof.
  intros tag. split; [reflexivity|]. split; [reflexivity|].
  split; [vm_compute; reflexivity|].
  apply (attack_upper_case_name_flagged sample_tactics sample_techniques 1%positive tag);
    reflexivity.
Defined.

(** ** Growing the catalogs *)

(** X2. The allow-set grows with the catalogs: with more tactics and more
    techniques every name allowed before is still allowed, so a tag the
    validator accepted is still accepted and every tag it reports now was
    reported before. *)
Theorem attack_allowed_tags_monotone
    (tactics tactics' techniques techniques' : gmap string string)
    (r : RuleRef) (tag : SigmaRuleTag) :
  tactics ⊆ tactics' →
  techniques ⊆ techniques' →
  ATTACKTagValidator.allowed_tags (ATTACKTagValidator.__init__ tactics techniques)
    ⊆ ATTACKTagValidator.allowed_tags (ATTACKTagValidator.__init__ tactics' techniques')
  ∧ (ATTACKTagValidator.validate_tag
       (setattr_rule (ATTACKTagValidator.__init__ tactics techniques) r) tag = Return [] →
     ATTACKTagValidator.validate_tag
       (setattr_rule (ATTACKTagValidator.__init__ tactics' techniques') r) tag = Return [])
  ∧ (ATTACKTagValidator.validate_tag
       (setattr_rule (ATTACKTagValidator.__init__ tactics' techniques') r) tag
     = Return [InvalidATTACKTagIssue [r] tag] →
     ATTACKTagValidator.validate_tag
       (setattr_rule (ATTACKTagValidator.__init__ tactics techniques) r) tag
     = Return [InvalidATTACKTagIssue [r] tag]).
Proof.
  intros Htac Htec.
  assert (Hsub : ATTACKTagValidator.allowed_tags (ATTACKTagValidator.__init__ tactics techniques)
                 ⊆ ATTACKTagValidator.allowed_tags
                     (ATTACKTagValidator.__init__ tactics' techniques')).
  { intros x. rewrite !elem_of_attack_allowed_tags.
    intros [(key & d & Hd & ->)|(key & d & Hd & ->)]; [left|right]; exists key, d;
      (split; [|done]); by eapply lookup_weaken. }
  assert (Hr : ∀ t t', ATTACKTagValidator.rule
                         (setattr_rule (ATTACKTagValidator.__init__ t t') r) = Some r)
    by reflexivity.
  split; [done|].
  rewrite (attack_validate_tag_bound _ r tag (Hr tactics techniques)),
          (attack_validate_tag_bound _ r tag (Hr tactics' techniques')).
  unfold attack_verdict. cbn [setattr_rule ATTACKTagValidator_validator
                               ATTACKTagValidator.allowed_tags] in *.
  split.
  - destruct (decide (_ ∧ name tag ∉ ATTACKTagValidator.allowed_tags
                                        (ATTACKTagValidator.__init__ tactics techniques)))
      as [?|Hno]; [by intros [=]|].
    intros _. rewrite decide_False; [done|]. intros [Hn Hout]. apply Hno. split; [done|].
    intros Hin. by apply Hout, Hsub.
  - destruct (decide (_ ∧ name tag ∉ ATTACKTagValidator.allowed_tags
                                        (ATTACKTagValidator.__init__ tactics' techniques')))
      as [[Hn Hout]|?]; [|by intros [=]].
    intros _. rewrite decide_True; [done|]. split; [done|].
    intros Hin. by apply Hout, Hsub.
Qed.

Lemma attack_allowed_tags_monotone_witness :
  let grown : gmap string string := <[ "T1059" := "Command and Scripting Interpreter" ]> sample_techniques in
  let tag := {| namespace := "attack"; name := "t1001" |} in
  sample_tactics ⊆ sample_tactics
  ∧ sample_techniques ⊆ grown
  ∧ ATTACKTagValidator.validate_tag
      (setattr_rule (ATTACKTagValidator.__init__ sample_tactics grown) 1%positive) tag
    = Return [].
Proof.
  intros grown tag.
  assert (Htac : sample_tactics ⊆ sample_tactics) by done.
  assert (Htec : sample_techniques ⊆ grown).
  { apply insert_subseteq. vm_compute. reflexivity. }
  split; [exact Htac|]. split; [exact Htec|].
  destruct (attack_allowed_tags_monotone sample_tactics sample_tactics sample_techniques grown
              1%positive tag Htac Htec) as (_ & Hkeep & _).
  apply Hkeep. vm_compute. reflexivity.
Defined.

(** ** The issues of a rule *)

Lemma attack_verdict_bind (allowed : gset string) (r : RuleRef) (ts : list SigmaRuleTag) :
  ts ≫= attack_verdict allowed r
  = InvalidATTACKTagIssue [r] <$> filter (attack_flagged allowed) ts.
Proof.
  induction ts as [|tag ts IH]; [done|].
  cbn [mbind list_bind]. rewrite IH, filter_cons. unfold attack_verdict, attack_flagged.
  by destruct (decide _).
Qed.

Lemma tlp_verdict_bind (allowed : gset string) (r : RuleRef) (ts : list SigmaRuleTag) :
  ts ≫= tlp_verdict allowed r
  = InvalidTLPTagIssue [r] <$> filter (tlp_flagged allowed) ts.
Proof.
  induction ts as [|tag ts IH]; [done|].
  cbn [mbind list_bind]. rewrite IH, filter_cons. unfold tlp_verdict, tlp_flagged.
  by destruct (decide _).
Qed.

Lemma attack_returned_issues (r : RuleRef) (rule : SigmaRule) (w : world ATTACKTagValidator.t) :
  objs w !! r = Some rule →
  returned_issues (validate r w)
  = Some (InvalidATTACKTagIssue [r]
            <$> filter (attack_flagged (ATTACKTagValidator.allowed_tags (self w))) (tags rule)).
Proof.
  intros Hr. rewrite (attack_validate_returns r rule w Hr). cbn [returned_issues].
  by rewrite attack_verdict_bind.
Qed.

Lemma tlp_returned_issues (r : RuleRef) (rule : SigmaRule) (w : world TLPTagValidatorBase.t) :
  objs w !! r = Some rule →
  returned_issues (validate r w)
  = Some (InvalidTLPTagIssue [r]
            <$> filter (tlp_flagged (TLPTagValidatorBase.allowed_tags (self w))) (tags rule)).
Proof.
  intros Hr. rewrite (tlp_validate_returns r rule w Hr). cbn [returned_issues].
  by rewrite tlp_verdict_bind.
Qed.

(** The issues over the tags that pass a stronger test are among those over
    the tags that pass a weaker one, in the same order. *)
Lemma sublist_filter_impl {A} (P Q : A → Prop) `{∀ x, Decision (P x)} `{∀ x, Decision (Q x)}
    (l : list A) :
  (∀ x, P x → Q x) → filter P l `sublist_of` filter Q l.
Proof.
  intros HPQ. induction l as [|x l IH]; [done|].
  rewrite !filter_cons. destruct (decide (P x)) as [HP|HP].
  - rewrite decide_True by auto. by apply sublist_skip.
  - destruct (decide (Q x)); [by apply sublist_cons|done].
Qed.

(** Two tests that exclude each other select no more elements together than
    the list has. *)
Lemma filter_disjoint_length {A} (P Q : A → Prop) `{∀ x, Decision (P x)} `{∀ x, Decision (Q x)}
    (l : list A) :
  (∀ x, P x → Q x → False) → length (filter P l) + length (filter Q l) ≤ length l.
Proof.
  intros Hex. induction l as [|x l IH]; [done|].
  rewrite !filter_cons. destruct (decide (P x)) as [HP|HP]; destruct (decide (Q x)) as [HQ|HQ];
    cbn; try lia. destruct (Hex x HP HQ).
Qed.

(** X3. On a rule of the store, [validate] of the ATT&CK validator and of a
    TLP validator returns one issue for each occurrence of a tag that is in
    the validator's namespace and outside its allow-set, in the order of the
    tag list and each implicating the validated rule alone; the other tags
    give nothing, so there are at most as many issues as tags. *)
Theorem validate_reports_flagged_tags_in_order
    (wa : world ATTACKTagValidator.t) (wt : world TLPTagValidatorBase.t)
    (r : RuleRef) (rule_a rule_t : SigmaRule) :
  objs wa !! r = Some rule_a →
  objs wt !! r = Some rule_t →
  (∃ issues,
     returned_issues (validate r wa) = Some issues
     ∧ issue_tag <$> issues
       = filter (attack_flagged (ATTACKTagValidator.allowed_tags (self wa))) (tags rule_a)
     ∧ Forall (λ issue, issue_rules issue = [r]) issues
     ∧ length issues ≤ length (tags rule_a))
  ∧ (∃ issues,
       returned_issues (validate r wt) = Some issues
       ∧ issue_tag <$> issues
         = filter (tlp_flagged (TLPTagValidatorBase.allowed_tags (self wt))) (tags rule_t)
       ∧ Forall (λ issue, issue_rules issue = [r]) issues
       ∧ length issues ≤ length (tags rule_t)).
Proof.
  intros Ha Ht. split.
  - eexists. split; [by apply attack_returned_issues|]. split; [|split].
    + rewrite <- list_fmap_compose. apply list_fmap_id.
    + apply Forall_fmap, Forall_true. done.
    + rewrite length_fmap. apply length_filter.
  - eexists. split; [by apply tlp_returned_issues|]. split; [|split].
    + rewrite <- list_fmap_compose. apply list_fmap_id.
    + apply Forall_fmap, Forall_true. done.
    + rewrite length_fmap. apply length_filter.
Qed.

Lemma validate_reports_flagged_tags_in_order_witness :
  let rule := rule_with_tags ["attack.test1"; "tlp.test"; "attack.t1001"; "attack.test1"] in
  let wa := World {[ 1%positive := rule ]}
                  (ATTACKTagValidator.__init__ sample_tactics sample_techniques) in
  let wt := World {[ 1%positive := rule ]} (TLPTagValidatorBase.new TLPTagValidator) in
  objs wa !! 1%positive = Some rule
  ∧ objs wt !! 1%positive = Some rule
  ∧ (∃ issues,
       returned_issues (validate 1%positive wa) = Some issues
       ∧ issue_tag <$> issues
         = [ {| namespace := "attack"; name := "test1" |};
             {| namespace := "attack"; name := "test1" |} ]).
Proof.
  intros rule wa wt.
  assert (Ha : objs wa !! 1%positive = Some rule) by (vm_compute; reflexivity).
  assert (Ht : objs wt !! 1%positive = Some rule) by (vm_compute; reflexivity).
  split; [exact Ha|]. split; [exact Ht|].
  destruct (validate_reports_flagged_tags_in_order wa wt 1%positive rule rule Ha Ht)
    as ((issues & Hret & Htags & _) & _).
  exists issues. split; [exact Hret|]. rewrite Htags. vm_compute. reflexivity.
Defined.

(** ** The validators side by side *)

(** X4. The ATT&CK validator and a TLP validator never report the same tag:
    run on the same rule, the tags of their issues are disjoint and the two
    issue lists together are no longer than the tag list. *)
Theorem attack_and_tlp_issues_disjoint
    (wa : world ATTACKTagValidator.t) (wt : world TLPTagValidatorBase.t)
    (ra rt : RuleRef) (rule : SigmaRule) :
  objs wa !! ra = Some rule →
  objs wt !! rt = Some rule →
  ∃ attack_issues tlp_issues,
    returned_issues (validate ra wa) = Some attack_issues
    ∧ returned_issues (validate rt wt) = Some tlp_issues
    ∧ length attack_issues + length tlp_issues ≤ length (tags rule)
    ∧ ∀ tag, tag ∈ issue_tag <$> attack_issues → tag ∈ issue_tag <$> tlp_issues → False.
Proof.
  intros Ha Ht. eexists _, _.
  split; [by apply attack_returned_issues|]. split; [by apply tlp_returned_issues|].
  assert (Hex : ∀ tag,
            attack_flagged (ATTACKTagValidator.allowed_tags (self wa)) tag →
            tlp_flagged (TLPTagValidatorBase.allowed_tags (self wt)) tag → False).
  { intros tag [Hn _] [Hn' _]. by rewrite Hn in Hn'. }
  split.
  - rewrite !length_fmap. by apply filter_disjoint_length.
  - intros tag. rewrite <- !list_fmap_compose, !list_fmap_id.
    intros [Hfa _]%list_elem_of_filter [Hft _]%list_elem_of_filter. by eapply Hex.
Qed.

Lemma attack_and_tlp_issues_disjoint_witness :
  let rule := rule_with_tags ["attack.test1"; "tlp.test"; "attack.t1001"] in
  let wa := World {[ 1%positive := rule ]}
                  (ATTACKTagValidator.__init__ sample_tactics sample_techniques) in
  let wt := World {[ 1%positive := rule ]} (TLPTagValidatorBase.new TLPTagValidator) in
  objs wa !! 1%positive = Some rule
  ∧ objs wt !! 1%positive = Some rule
  ∧ ∃ attack_issues tlp_issues,
      returned_issues (validate 1%positive wa) = Some attack_issues
      ∧ returned_issues (validate 1%positive wt) = Some tlp_issues
      ∧ length attack_issues + length tlp_issues ≤ 3.
Proof.
  intros rule wa wt.
  assert (Ha : objs wa !! 1%positive = Some rule) by (vm_compute; reflexivity).
  assert (Ht : objs wt !! 1%positive = Some rule) by (vm_compute; reflexivity).
  split; [exact Ha|]. split; [exact Ht|].
  destruct (attack_and_tlp_issues_disjoint wa wt 1%positive 1%positive rule Ha Ht)
    as (ia & it & Hia & Hit & Hlen & _).
  exists ia, it. split; [exact Hia|]. split; [exact Hit|]. exact Hlen.
Defined.

(** X5. The issues of [validate] depend on the tag list of the rule and on
    the allow-set only: two validators with the same allow-set return the
    same issues for a rule reference whose tag lists agree, whatever rules
    they validated before, whatever else the store holds and whatever the
    title, identifier, detections and conditions of the rule are. *)
Theorem validate_depends_on_tags_only
    (wa wa' : world ATTACKTagValidator.t) (wt wt' : world TLPTagValidatorBase.t)
    (r : RuleRef) (rule rule' : SigmaRule) :
  objs wa !! r = Some rule → objs wa' !! r = Some rule' →
  objs wt !! r = Some rule → objs wt' !! r = Some rule' →
  tags rule = tags rule' →
  ATTACKTagValidator.allowed_tags (self wa) = ATTACKTagValidator.allowed_tags (self wa') →
  TLPTagValidatorBase.class (self wt) = TLPTagValidatorBase.class (self wt') →
  returned_issues (validate r wa) = returned_issues (validate r wa')
  ∧ returned_issues (validate r wt) = returned_issues (validate r wt')
  ∧ is_Some (returned_issues (validate r wa))
  ∧ is_Some (returned_issues (validate r wt)).
Proof.
  intros Ha Ha' Ht Ht' Htags Hallowed Hclass.
  rewrite (attack_returned_issues r rule wa Ha), (attack_returned_issues r rule' wa' Ha'),
          (tlp_returned_issues r rule wt Ht), (tlp_returned_issues r rule' wt' Ht').
  unfold TLPTagValidatorBase.allowed_tags. rewrite Htags, Hallowed, Hclass.
  split; [done|]. split; [done|]. split; by eexists.
Qed.

Lemma validate_depends_on_tags_only_witness :
  let rule := rule_with_tags ["attack.test1"; "tlp.test"] in
  let rule' := {| identifier := Some "19855ce4-00b3-4d07-8e57-f6c6955ce4e7";
                  title := "Other"; detections := []; condition := [];
                  tags := tags rule |} in
  let fresh := ATTACKTagValidator.__init__ sample_tactics sample_techniques in
  let wa := World {[ 1%positive := rule ]} fresh in
  let wa' := World {[ 1%positive := rule'; 2%positive := rule ]} (setattr_rule fresh 2%positive) in
  let wt := World {[ 1%positive := rule ]} (TLPTagValidatorBase.new TLPv1TagValidator) in
  let wt' := World {[ 1%positive := rule'; 2%positive := rule ]}
                   (setattr_rule (TLPTagValidatorBase.new TLPv1TagValidator) 2%positive) in
  returned_issues (validate 1%positive wa) = returned_issues (validate 1%positive wa')
  ∧ returned_issues (validate 1%positive wt) = returned_issues (validate 1%positive wt').
Proof.
  intros rule rule' fresh wa wa' wt wt'.
  assert (H1 : objs wa !! 1%positive = Some rule) by (vm_compute; reflexivity).
  assert (H2 : objs wa' !! 1%positive = Some rule') by (vm_compute; reflexivity).
  assert (H3 : objs wt !! 1%positive = Some rule) by (vm_compute; reflexivity).
  assert (H4 : objs wt' !! 1%positive = Some rule') by (vm_compute; reflexivity).
  destruct (validate_depends_on_tags_only wa wa' wt wt' 1%positive rule rule'
              H1 H2 H3 H4 eq_refl eq_refl eq_refl) as (Hsame & Hsame' & _).
  split; [exact Hsame|exact Hsame'].
Defined.

(** X6. On any rule the issues of the validator for all TLP versions are
    among the issues of the v1 validator and among those of the v2
    validator, in the same order; a rule that is clean for one of the two is
    clean for it. *)
Theorem tlp_union_issues_sublist
    (rules : store) (r : RuleRef) (rule : SigmaRule) (attr1 attr2 attr : option RuleRef) :
  rules !! r = Some rule →
  ∃ issues1 issues2 issues,
    returned_issues (validate r (World rules (tlp_validator TLPv1TagValidator attr1)))
      = Some issues1
    ∧ returned_issues (validate r (World rules (tlp_validator TLPv2TagValidator attr2)))
      = Some issues2
    ∧ returned_issues (validate r (World rules (tlp_validator TLPTagValidator attr)))
      = Some issues
    ∧ issues `sublist_of` issues1
    ∧ issues `sublist_of` issues2
    ∧ (issues1 = [] ∨ issues2 = [] → issues = []).
Proof.
  intros Hr. eexists _, _, _.
  split; [by apply (tlp_returned_issues r rule (World rules _))|].
  split; [by apply (tlp_returned_issues r rule (World rules _))|].
  split; [by apply (tlp_returned_issues r rule (World rules _))|].
  cbn [self objs]. unfold TLPTagValidatorBase.allowed_tags.
  cbn [TLPTagValidatorBase.class tlp_validator]. unfold TLPTagValidator_allowed_tags.
  assert (H1 : filter (tlp_flagged (TLPv1TagValidator_allowed_tags
                                     ∪ TLPv2TagValidator_allowed_tags)) (tags rule)
               `sublist_of` filter (tlp_flagged TLPv1TagValidator_allowed_tags) (tags rule)).
  { apply sublist_filter_impl. intros tag [Hn Hout]. split; [done|]. set_solver. }
  assert (H2 : filter (tlp_flagged (TLPv1TagValidator_allowed_tags
                                     ∪ TLPv2TagValidator_allowed_tags)) (tags rule)
               `sublist_of` filter (tlp_flagged TLPv2TagValidator_allowed_tags) (tags rule)).
  { apply sublist_filter_impl. intros tag [Hn Hout]. split; [done|]. set_solver. }
  split; [by apply fmap_sublist|]. split; [by apply fmap_sublist|].
  intros [Hnil|Hnil]; apply fmap_nil_inv in Hnil; rewrite Hnil in *.
  - by apply sublist_nil_r in H1 as ->.
  - by apply sublist_nil_r in H2 as ->.
Qed.

Lemma tlp_union_issues_sublist_witness :
  let rule := rule_with_tags ["tlp.clear"; "tlp.white"; "tlp.test"] in
  let rules : store := {[ 1%positive := rule ]} in
  rules !! 1%positive = Some rule
  ∧ ∃ issues1 issues,
      returned_issues (validate 1%positive (World rules (tlp_validator TLPv1TagValidator None)))
        = Some issues1
      ∧ returned_issues (validate 1%positive (World rules (tlp_validator TLPTagValidator None)))
        = Some issues
      ∧ issues `sublist_of` issues1.
Proof.
  intros rule rules.
  assert (Hr : rules !! 1%positive = Some rule) by (vm_compute; reflexivity).
  split; [exact Hr|].
  destruct (tlp_union_issues_sublist rules 1%positive rule None None None Hr)
    as (i1 & i2 & i & H1 & _ & H & Hsub & _).
  exists i1, i. split; [exact H1|]. split; [exact H|exact Hsub].
Defined.

(** ** The TLP vocabularies *)

(** How a name stands in the two label lists. *)
Lemma tlp_label_cases (x : string) :
  (x ∈ ["white"; "green"; "amber"; "red"]
   ∧ x ∈ ["clear"; "green"; "amber"; "amber+strict"; "red"]
   ↔ x ∈ ["green"; "amber"; "red"])
  ∧ ((x ∉ ["white"; "green"; "amber"; "red"])
     ∧ x ∈ ["clear"; "green"; "amber"; "amber+strict"; "red"]
     ↔ x ∈ ["clear"; "amber+strict"])
  ∧ (x ∈ ["white"; "green"; "amber"; "red"]
     ∧ (x ∉ ["clear"; "green"; "amber"; "amber+strict"; "red"])
     ↔ x = "white").
Proof.
  destruct (decide (x ∈ ["white"; "green"; "amber"; "red"; "clear"; "amber+strict"]))
    as [Hx|Hx].
  - repeat (apply elem_of_cons in Hx as [->|Hx]);
      try (by apply elem_of_nil in Hx);
      apply (bool_decide_unpack _); vm_compute; exact I.
  - assert (H1 : x ∉ ["white"; "green"; "amber"; "red"]).
    { intros H. apply Hx. revert H. rewrite !elem_of_cons, !elem_of_nil. tauto. }
    assert (H2 : x ∉ ["clear"; "green"; "amber"; "amber+strict"; "red"]).
    { intros H. apply Hx. revert H. rewrite !elem_of_cons, !elem_of_nil. tauto. }
    assert (H3 : x ∉ ["green"; "amber"; "red"]).
    { intros H. apply Hx. revert H. rewrite !elem_of_cons, !elem_of_nil. tauto. }
    assert (H4 : x ∉ ["clear"; "amber+strict"]).
    { intros H. apply Hx. revert H. rewrite !elem_of_cons, !elem_of_nil. tauto. }
    assert (H5 : x ≠ "white").
    { intros ->. apply Hx. left. }
    tauto.
Qed.

(** X7. On the tags of the namespace "tlp" the v1 and the v2 validator
    differ on three names only: "clear" and "amber+strict" are reported by
    v1 and accepted by v2, "white" is accepted by v1 and reported by v2, and
    the names both accept are "green", "amber" and "red". *)
Theorem tlp_versions_disagreement (r : RuleRef) (tag : SigmaRuleTag) :
  namespace tag = "tlp" →
  (TLPTagValidatorBase.validate_tag (tlp_validator TLPv1TagValidator (Some r)) tag
     = Return [InvalidTLPTagIssue [r] tag]
   ∧ TLPTagValidatorBase.validate_tag (tlp_validator TLPv2TagValidator (Some r)) tag
     = Return []
   ↔ name tag ∈ ["clear"; "amber+strict"])
  ∧ (TLPTagValidatorBase.validate_tag (tlp_validator TLPv1TagValidator (Some r)) tag
       = Return []
     ∧ TLPTagValidatorBase.validate_tag (tlp_validator TLPv2TagValidator (Some r)) tag
       = Return [InvalidTLPTagIssue [r] tag]
     ↔ name tag = "white")
  ∧ (TLPTagValidatorBase.validate_tag (tlp_validator TLPv1TagValidator (Some r)) tag
       = Return []
     ∧ TLPTagValidatorBase.validate_tag (tlp_validator TLPv2TagValidator (Some r)) tag
       = Return []
     ↔ name tag ∈ ["green"; "amber"; "red"]).
Proof.
  intros Hn.
  rewrite (tlp_validate_tag_bound (tlp_validator TLPv1TagValidator (Some r)) r tag eq_refl),
          (tlp_validate_tag_bound (tlp_validator TLPv2TagValidator (Some r)) r tag eq_refl).
  unfold tlp_verdict, TLPTagValidatorBase.allowed_tags.
  cbn [TLPTagValidatorBase.class tlp_validator].
  assert (H1 : name tag ∈ TLPv1TagValidator_allowed_tags
               ↔ name tag ∈ ["white"; "green"; "amber"; "red"])
    by (unfold TLPv1TagValidator_allowed_tags; set_solver).
  assert (H2 : name tag ∈ TLPv2TagValidator_allowed_tags
               ↔ name tag ∈ ["clear"; "green"; "amber"; "amber+strict"; "red"])
    by (unfold TLPv2TagValidator_allowed_tags; set_solver).
  destruct (tlp_label_cases (name tag)) as (Hboth & Hv2 & Hv1).
  rewrite <- H1, <- H2 in Hboth, Hv2, Hv1.
  destruct (decide (name tag ∈ TLPv1TagValidator_allowed_tags)) as [Hin1|Hout1];
    destruct (decide (name tag ∈ TLPv2TagValidator_allowed_tags)) as [Hin2|Hout2].
  - rewrite !decide_False by (by intros [_ ?]).
    split; [|split]; (split; [intros [E1 E2]; try discriminate; tauto|]);
      intros Hx; try tauto; exfalso; tauto.
  - rewrite (decide_False (P:=_ ∧ name tag ∉ TLPv1TagValidator_allowed_tags))
      by (by intros [_ ?]).
    rewrite (decide_True (P:=_ ∧ name tag ∉ TLPv2TagValidator_allowed_tags)) by done.
    split; [|split]; (split; [intros [E1 E2]; try discriminate; tauto|]);
      intros Hx; try tauto; exfalso; tauto.
  - rewrite (decide_True (P:=_ ∧ name tag ∉ TLPv1TagValidator_allowed_tags)) by done.
    rewrite (decide_False (P:=_ ∧ name tag ∉ TLPv2TagValidator_allowed_tags))
      by (by intros [_ ?]).
    split; [|split]; (split; [intros [E1 E2]; try discriminate; tauto|]);
      intros Hx; try tauto; exfalso; tauto.
  - rewrite !decide_True by done.
    split; [|split]; (split; [intros [E1 E2]; try discriminate; tauto|]);
      intros Hx; try tauto; exfalso; tauto.
Qed.

Lemma tlp_versions_disagreement_witness :
  let tag := {| namespace := "tlp"; name := "amber+strict" |} in
  namespace tag = "tlp"
  ∧ TLPTagValidatorBase.validate_tag (tlp_validator TLPv1TagValidator (Some 1%positive)) tag
    = Return [InvalidTLPTagIssue [1%positive] tag]
  ∧ TLPTagValidatorBase.validate_tag (tlp_validator TLPv2TagValidator (Some 1%positive)) tag
    = Return [].
Proof.
  intros tag. split; [reflexivity|].
  destruct (tlp_versions_disagreement 1%positive tag eq_refl) as (Hiff & _).
  apply Hiff. apply (bool_decide_unpack _). vm_compute. exact I.
Defined.

(** X8. The labels of the three TLP allow-sets are all lower-case, and a
    label is compared as it is written: every TLP validator reports every tag
    of the namespace "tlp" whose name holds an upper-case letter. *)
Theorem tlp_upper_case_name_flagged
    (validator_class : TLPTagValidatorClass) (r : RuleRef) (tag : SigmaRuleTag) :
  namespace tag = "tlp" →
  string_exists is_upper (name tag) = true →
  (∀ x, x ∈ TLPTagValidatorBase.allowed_tags (tlp_validator validator_class (Some r)) →
        lower x = x)
  ∧ TLPTagValidatorBase.validate_tag (tlp_validator validator_class (Some r)) tag
    = Return [InvalidTLPTagIssue [r] tag].
Proof.
  intros Hn Hupper.
  assert (Hlabels : ∀ x, x ∈ TLPTagValidatorBase.allowed_tags
                               (tlp_validator validator_class (Some r)) →
                         x ∈ ["white"; "green"; "amber"; "red"; "clear"; "amber+strict"]).
  { intros x. unfold TLPTagValidatorBase.allowed_tags.
    destruct validator_class; cbn [TLPTagValidatorBase.class tlp_validator];
      unfold TLPTagValidator_allowed_tags, TLPv1TagValidator_allowed_tags,
             TLPv2TagValidator_allowed_tags; set_solver. }
  assert (Hnormal : ∀ x, x ∈ ["white"; "green"; "amber"; "red"; "clear"; "amber+strict"] →
                         lower x = x ∧ string_exists is_upper x = false).
  { intros x Hx. repeat (apply elem_of_cons in Hx as [->|Hx]; [by split|]).
    by apply elem_of_nil in Hx. }
  split.
  - intros x Hx. by apply Hnormal, Hlabels.
  - rewrite (tlp_validate_tag_bound (tlp_validator validator_class (Some r)) r tag eq_refl).
    unfold tlp_verdict. rewrite decide_True; [done|]. split; [done|].
    intros Hin. apply Hlabels, Hnormal in Hin as [_ Hno]. congruence.
Qed.

Lemma tlp_upper_case_name_flagged_witness :
  let tag := {| namespace := "tlp"; name := "RED" |} in
  namespace tag = "tlp"
  ∧ string_exists is_upper (name tag) = true
  ∧ TLPTagValidatorBase.validate_tag (tlp_validator TLPTagValidator (Some 1%positive)) tag
    = Return [InvalidTLPTagIssue [1%positive] tag].
Proof.
  intros tag. split; [reflexivity|]. split; [reflexivity|].
  apply (tlp_upper_case_name_flagged TLPTagValidator 1%positive tag); reflexivity.
Defined.

(** ** Tactic names are allowed in their underscore form only *)

Lemma replace_dash_no_dash (s : string) :
  string_exists (Ascii.eqb "-") (replace "-" "_" s) = false.
Proof.
  induction s as [|c s IH]; [done|].
  unfold replace in *. cbn [string_map string_exists]. rewrite IH.
  destruct (Ascii.eqb c "-") eqn:E; [done|].
  by rewrite Ascii.eqb_sym, E.
Qed.

(** X9. The display name of every tactic of the catalog is accepted in its
    normalised form, lower-case with "_" for "-"; a name that holds a "-" is
    in the allow-set only as the lower-casing of a technique key, so a tag
    of the namespace "attack" that spells a tactic with "-" is reported
    unless a technique key lower-cases to it. *)
Theorem attack_tactic_names_underscore_form
    (tactics techniques : gmap string string) (r : RuleRef) (tag : SigmaRuleTag) :
  namespace tag = "attack" →
  string_exists (Ascii.eqb "-") (name tag) = true →
  (∀ key, is_Some (techniques !! key) → lower key ≠ name tag) →
  ATTACKTagValidator.validate_tag
    (setattr_rule (ATTACKTagValidator.__init__ tactics techniques) r) tag
  = Return [InvalidATTACKTagIssue [r] tag]
  ∧ (∀ key display,
       tactics !! key = Some display →
       ATTACKTagValidator.validate_tag
         (setattr_rule (ATTACKTagValidator.__init__ tactics techniques) r)
         {| namespace := "attack"; name := replace "-" "_" (lower display) |}
       = Return []).
Proof.
  intros Hn Hdash Htech.
  assert (Hrule : ATTACKTagValidator.rule
                    (setattr_rule (ATTACKTagValidator.__init__ tactics techniques) r)
                  = Some r) by reflexivity.
  split.
  - rewrite (attack_validate_tag_bound _ r tag Hrule).
    unfold attack_verdict. rewrite decide_True; [done|]. split; [done|].
    intros [(key & d & _ & Hx)|(key & d & Hd & Hx)]%elem_of_attack_allowed_tags.
    + rewrite Hx, replace_dash_no_dash in Hdash. discriminate.
    + by apply (Htech key); [eexists|].
  - intros key display Hd. rewrite (attack_validate_tag_bound _ r _ Hrule).
    unfold attack_verdict. rewrite decide_False; [done|]. intros [_ Hout]. apply Hout.
    apply elem_of_attack_allowed_tags. left. eauto.
Qed.

Lemma attack_tactic_names_underscore_form_witness :
  let dashed := {| namespace := "attack"; name := "command-and-control" |} in
  let v := setattr_rule (ATTACKTagValidator.__init__ sample_tactics ∅) 1%positive in
  namespace dashed = "attack"
  ∧ string_exists (Ascii.eqb "-") (name dashed) = true
  ∧ (∀ key, is_Some ((∅ : gmap string string) !! key) → lower key ≠ name dashed)
  ∧ ATTACKTagValidator.validate_tag v dashed = Return [InvalidATTACKTagIssue [1%positive] dashed]
  ∧ ATTACKTagValidator.validate_tag v {| namespace := "attack"; name := "command_and_control" |}
    = Return [].
Proof.
  intros dashed v.
  assert (Htech : ∀ key, is_Some ((∅ : gmap string string) !! key) → lower key ≠ name dashed).
  { intros key [d Hd]. by rewrite lookup_empty in Hd. }
  destruct (attack_tactic_names_underscore_form sample_tactics ∅ 1%positive dashed
              eq_refl eq_refl Htech) as [Hflag Haccept].
  split; [reflexivity|]. split; [reflexivity|]. split; [exact Htech|].
  split; [exact Hflag|].
  apply (Haccept "TA0011" "command-and-control"). vm_compute. reflexivity.
Defined.
